(** * markdown2word: a shallow embedding of [md_to_word.py]

    The converter reads a Markdown file, splits it into lines, dispatches
    on the shape of each line and drives a word-processing library.  The
    embedding keeps the two phases of the script:

    - [process_markdown_text], the inline formatter, which returns the
      runs it adds to a paragraph;
    - [convert_markdown_to_word], the line loop, which returns the blocks
      it adds to the document.

    Python [str] values are sequences of Unicode code points, so a string
    is a list of code points here. *)

From Stdlib Require Import String Ascii.
From Stdlib Require Import List ZArith NArith Bool Lia.
From Stdlib Require Import Sorted Permutation.
Import ListNotations.

(** ** Python strings *)

Module Py.

Definition char := N.
Definition str := list char.

(** An ASCII literal as a Python string. *)
Definition lit (s : string) : str := map N_of_ascii (list_ascii_of_string s).

Definition NL : char := 10%N.

(** [str.isspace] on one code point, which is also what [\s] matches in a
    [str] pattern and what [str.strip()] removes. *)
Definition isspace (c : char) : bool :=
  (((9 <=? c) && (c <=? 13)) || ((28 <=? c) && (c <=? 32))
   || (c =? 133) || (c =? 160) || (c =? 5760)
   || ((8192 <=? c) && (c <=? 8202))
   || (c =? 8232) || (c =? 8233) || (c =? 8239) || (c =? 8287)
   || (c =? 12288))%N.

Fixpoint str_eqb (a b : str) : bool :=
  match a, b with
  | [], [] => true
  | x :: a', y :: b' => (x =? y)%N && str_eqb a' b'
  | _, _ => false
  end.

(** [s.startswith(p)] *)
Fixpoint startswith (p s : str) : bool :=
  match p, s with
  | [], _ => true
  | x :: p', y :: s' => (x =? y)%N && startswith p' s'
  | _ :: _, [] => false
  end.

Fixpoint dropwhile (f : char -> bool) (s : str) : str :=
  match s with
  | [] => []
  | c :: s' => if f c then dropwhile f s' else s
  end.

Fixpoint takewhile {A : Type} (f : A -> bool) (l : list A) : list A :=
  match l with
  | [] => []
  | x :: l' => if f x then x :: takewhile f l' else []
  end.

Definition lstrip (s : str) : str := dropwhile isspace s.
Definition rstrip (s : str) : str := rev (dropwhile isspace (rev s)).
Definition strip (s : str) : str := lstrip (rstrip s).

(** [s.split(sep)] for a one-character separator: never empty. *)
Fixpoint split (sep : char) (s : str) : list str :=
  match s with
  | [] => [[]]
  | c :: s' =>
      if (c =? sep)%N then [] :: split sep s'
      else match split sep s' with
           | [] => [[c]]
           | w :: ws => (c :: w) :: ws
           end
  end.

(** [sep.join(parts)] *)
Fixpoint join (sep : str) (parts : list str) : str :=
  match parts with
  | [] => []
  | [p] => p
  | p :: ps => p ++ sep ++ join sep ps
  end.

(** [s[a:b]] and [s[a:]] for [0 <= a]. *)
Definition slice (s : str) (a b : nat) : str := firstn (b - a) (skipn a s).
Definition slice_from (s : str) (a : nat) : str := skipn a s.

End Py.

Import Py.

(** ** The regular expressions of the script

    Each pattern is written out as the backtracking search [re] performs
    for it.  [.] matches any code point but a newline; [+?] is lazy: the
    shortest extension for which the rest of the pattern succeeds. *)

Module Re.

(** [(.+?)delim]: the captured group, if the match succeeds here. *)
Fixpoint lazy_until (delim : str) (s : str) : option str :=
  match s with
  | [] => None
  | c :: s' =>
      if (c =? NL)%N then None
      else if startswith delim s' then Some [c]
      else option_map (cons c) (lazy_until delim s')
  end.

(** One alternative of [(\*\*|__)(.+?)\1]: payload is group 2. *)
Definition delimited (d : str) (s : str) : option (str * nat) :=
  if startswith d s then
    match lazy_until d (skipn (length d) s) with
    | Some g => Some (g, length d + length g + length d)
    | None => None
    end
  else None.

(** [\*\*(.+?)\*\*] at the head of [s]. *)
Definition stars_at (s : str) : option (str * nat) := delimited (lit "**") s.

(** [(\*\*|__)(.+?)\1] at the head of [s]. *)
Definition bold_at (s : str) : option (str * nat) :=
  match delimited (lit "**") s with
  | Some r => Some r
  | None => delimited (lit "__") s
  end.

(** [`(.+?)`] at the head of [s]. *)
Definition code_at (s : str) : option (str * nat) :=
  match s with
  | c :: s' =>
      if (c =? 96)%N then
        match lazy_until [96%N] s' with
        | Some g => Some (g, 1 + length g + 1)
        | None => None
        end
      else None
  | [] => None
  end.

(** The groups of [(.+?)\]\((.+?)\)]: the first group grows until the
    whole rest of the pattern succeeds. *)
Fixpoint link_groups (s : str) : option (str * str) :=
  match s with
  | [] => None
  | c :: s' =>
      if (c =? NL)%N then None
      else
        match (if startswith (lit "](") s'
               then lazy_until (lit ")") (skipn 2 s') else None) with
        | Some u => Some ([c], u)
        | None =>
            match link_groups s' with
            | Some (t, u) => Some (c :: t, u)
            | None => None
            end
        end
  end.

(** [\[(.+?)\]\((.+?)\)] at the head of [s]: groups 1 and 2. *)
Definition link_at (s : str) : option ((str * str) * nat) :=
  match s with
  | c :: s' =>
      if (c =? 91)%N then
        match link_groups s' with
        | Some (t, u) => Some ((t, u), 1 + length t + 2 + length u + 1)
        | None => None
        end
      else None
  | [] => None
  end.

Section Scan.
Context {A : Type}.
(** payload and length of the match that starts at the head of a suffix *)
Variable match_at : str -> option (A * nat).

(** [re.finditer]: leftmost matches, the scan resuming at the end of
    each match ([skip] counts the code points still inside it). *)
Fixpoint finditer_from (skip pos : nat) (s : str) : list (nat * nat * A) :=
  match s with
  | [] => []
  | _ :: s' =>
      match skip with
      | S k => finditer_from k (S pos) s'
      | O =>
          match match_at s with
          | Some (a, n) => (pos, pos + n, a) :: finditer_from (n - 1) (S pos) s'
          | None => finditer_from 0 (S pos) s'
          end
      end
  end.

Definition finditer (s : str) : list (nat * nat * A) := finditer_from 0 0 s.
End Scan.

(** [re.sub(r'\*\*(.+?)\*\*', r'\1', s)] *)
Fixpoint sub_stars_from (skip : nat) (s : str) : str :=
  match s with
  | [] => []
  | c :: s' =>
      match skip with
      | S k => sub_stars_from k s'
      | O =>
          match stars_at s with
          | Some (g, n) => g ++ sub_stars_from (n - 1) s'
          | None => c :: sub_stars_from 0 s'
          end
      end
  end.

Definition sub_stars (s : str) : str := sub_stars_from 0 s.

(** The code points that open one of the inline patterns, and text
    without any of them. *)
Definition marker (c : char) : bool :=
  ((c =? 42) || (c =? 95) || (c =? 96) || (c =? 91))%N.

Definition plain_text (s : str) : bool := forallb (fun c => negb (marker c)) s.

Definition one_line (s : str) : bool := forallb (fun c => negb (c =? NL)%N) s.

(** Code points that are not an asterisk; not an asterisk nor a newline. *)
Definition no_star (x : char) : bool := negb (x =? 42)%N.
Definition inner_char (x : char) : bool := negb (x =? 42)%N && negb (x =? NL)%N.

End Re.

(** ** Runs and the inline formatter *)

(** What [process_markdown_text] sets on a run besides the common body
    font and colour: nothing, [bold], the monospace font, or [underline]. *)
Inductive style := Plain | Bold | Code | Link.

Record run := Run { run_text : str; run_style : style }.

Inductive ftype := TBold | TCode | TLink.

(** The dictionaries collected in [formats]. *)
Record format := Format {
  f_start : nat;
  f_end : nat;
  f_content : str;
  f_url : option str;
  f_type : ftype;
  f_original : str
}.

Definition style_of (t : ftype) : style :=
  match t with TBold => Bold | TCode => Code | TLink => Link end.

(** The test of the inner [for fmt in formats] loops. *)
Definition hits (ms me : nat) (f : format) : bool :=
  ((f_start f <=? ms) && (ms <? f_end f)) || ((f_start f <? me) && (me <=? f_end f)).

Definition is_valid (ms me : nat) (formats : list format) : bool :=
  negb (existsb (hits ms me) formats).

Definition add_bold (text : str) (formats : list format) (m : nat * nat * str) : list format :=
  let '(s, e, g) := m in
  formats ++ [Format s e g None TBold (slice text s e)].

Definition add_code (text : str) (formats : list format) (m : nat * nat * str) : list format :=
  let '(s, e, g) := m in
  if is_valid s e formats
  then formats ++ [Format s e g None TCode (slice text s e)]
  else formats.

Definition add_link (text : str) (formats : list format) (m : nat * nat * (str * str)) : list format :=
  let '(s, e, (g1, g2)) := m in
  if is_valid s e formats
  then formats ++ [Format s e g1 (Some g2) TLink (slice text s e)]
  else formats.

(** [formats] after the three search loops, before sorting. *)
Definition collect_formats (text : str) : list format :=
  let formats := fold_left (add_bold text) (Re.finditer Re.bold_at text) [] in
  let formats := fold_left (add_code text) (Re.finditer Re.code_at text) formats in
  fold_left (add_link text) (Re.finditer Re.link_at text) formats.

(** [formats.sort(key=lambda x: x['start'])]: a stable sort. *)
Fixpoint insert_by_start (f : format) (l : list format) : list format :=
  match l with
  | [] => [f]
  | g :: l' => if f_start f <? f_start g then f :: l else g :: insert_by_start f l'
  end.

Definition sort_by_start (l : list format) : list format :=
  fold_left (fun acc f => insert_by_start f acc) l [].

(** One turn of the emitting loop: state is [(last_end, runs)]. *)
Definition emit (text : str) (st : nat * list run) (f : format) : nat * list run :=
  let '(last_end, runs) := st in
  let runs :=
    if last_end <? f_start f
    then runs ++ [Run (slice text last_end (f_start f)) Plain]
    else runs in
  (f_end f, runs ++ [Run (f_content f) (style_of (f_type f))]).

(** The accepted formats in emission order. *)
Definition accepted (text : str) : list format :=
  sort_by_start (collect_formats (Re.sub_stars text)).

(** [process_markdown_text(paragraph, text)]: the runs added to [paragraph]. *)
Definition process_markdown_text (text : str) : list run :=
  let text := Re.sub_stars text in
  let formats := sort_by_start (collect_formats text) in
  match formats with
  | [] => [Run text Plain]
  | _ =>
      let '(last_end, runs) := fold_left (emit text) formats (0, []) in
      if last_end <? length text
      then runs ++ [Run (slice_from text last_end) Plain]
      else runs
  end.

Definition texts (rs : list run) : str := concat (map run_text rs).

(** ** The document *)

(** What the script adds to the document, one constructor per kind of
    call sequence: [add_heading] with its run, the bordered paragraph of
    a rule, [add_table], a ['List Bullet'] or ['List Number'] paragraph,
    the paragraph of a fenced block, the indented paragraph of a quote,
    a plain paragraph, and the empty paragraph of a blank line. *)
Inductive block :=
| Heading (level : nat) (text : str)
| Rule
| Table (nrows ncols : nat) (cells : list (list (list run)))
| BulletItem (runs : list run)
| NumberItem (runs : list run)
| CodeBlock (text : str)
| Quote (runs : list run)
| Paragraph (runs : list run)
| Blank.

(** ** Tables *)

Module TableM.

(** [re.match(r'^[\|\s\-:]+$', row)] *)
Definition sep_char (c : char) : bool :=
  ((c =? 124) || isspace c || (c =? 45) || (c =? 58))%N.

Definition is_separator (row : str) : bool :=
  match row with
  | [] => false
  | _ => forallb sep_char row
  end.

Definition nonempty (s : str) : bool :=
  match s with [] => false | _ => true end.

(** [[cell.strip() for cell in row.split('|')]] filtered by [if cell]. *)
Definition cells_of (row : str) : list str :=
  filter nonempty (map strip (split 124%N row)).

(** The rows kept by [create_table]. *)
Definition table_rows (markdown_table : str) : list str :=
  let rows := map strip (split NL (strip markdown_table)) in
  match rows with
  | header_row :: r1 :: rest =>
      if is_separator r1 then header_row :: rest else rows
  | _ => rows
  end.

Definition max_cols (rows : list str) : nat :=
  fold_left (fun m row => Nat.max m (length (cells_of row))) rows 0.

(** [document.add_table(rows, cols)]: a grid of cells with no run. *)
Definition add_table (rows cols : nat) : list (list (list run)) :=
  repeat (repeat [] cols) rows.

Fixpoint update {A : Type} (n : nat) (f : A -> A) (l : list A) : list A :=
  match l, n with
  | [], _ => []
  | x :: l', O => f x :: l'
  | x :: l', S k => x :: update k f l'
  end.

(** Runs added to the paragraph of [table.cell(i, j)]. *)
Definition add_to_cell (i j : nat) (rs : list run)
    (g : list (list (list run))) : list (list (list run)) :=
  update i (update j (fun cell => cell ++ rs)) g.

Fixpoint enumerate_from {A : Type} (n : nat) (l : list A) : list (nat * A) :=
  match l with
  | [] => []
  | x :: l' => (n, x) :: enumerate_from (S n) l'
  end.

Definition enumerate {A : Type} (l : list A) : list (nat * A) := enumerate_from 0 l.

Definition fill_row (cols : nat) (g : list (list (list run))) (ir : nat * str) :=
  let '(i, row) := ir in
  fold_left
    (fun g jc =>
       let '(j, cell_content) := jc in
       if j <? cols then add_to_cell i j (process_markdown_text cell_content) g
       else g)
    (enumerate (cells_of row)) g.

Definition fill (cols : nat) (rows : list str) (g : list (list (list run))) :=
  fold_left (fill_row cols) (enumerate rows) g.

(** The cells of one row once the inner loop has gone through
    [cells]: what [fill_row] does to the row it works on. *)
Definition row_after (cols : nat) (cells : list (nat * str))
    (r : list (list run)) : list (list run) :=
  fold_left
    (fun r jc =>
       let '(j, cell_content) := jc in
       if j <? cols
       then update j (fun cell => cell ++ process_markdown_text cell_content) r
       else r)
    cells r.

(** A finished row: the runs of its cells, then cells without a run. *)
Definition row_cells (cols : nat) (row : str) : list (list run) :=
  map process_markdown_text (cells_of row) ++ repeat [] (cols - length (cells_of row)).

(** The claim's reading of a row: split on [|], trim, and drop the empty
    cells at the two ends only. *)
Definition trim_ends (cells : list str) : list str :=
  let drop_empty :=
    fix drop (l : list str) : list str :=
      match l with
      | [] :: l' => drop l'
      | _ => l
      end in
  rev (drop_empty (rev (drop_empty cells))).

Definition cells_as_claimed (row : str) : list str :=
  trim_ends (map strip (split 124%N row)).

End TableM.

(** [create_table(document, markdown_table)]: the table added. *)
Definition create_table (markdown_table : str) : block :=
  let rows := TableM.table_rows markdown_table in
  let cols := TableM.max_cols rows in
  Table (length rows) cols
        (TableM.fill cols rows (TableM.add_table (length rows) cols)).

(** ** The line loop *)

Module Line.

(** [re.match(r'^(---|\*\*\*|___)$', line)]; [$] also matches before a
    final newline. *)
Definition is_rule (line : str) : bool :=
  existsb (fun p => str_eqb line p || str_eqb line (p ++ [NL]))
          [lit "---"; lit "***"; lit "___"].

Definition bullet_char (c : char) : bool :=
  ((c =? 42) || (c =? 45) || (c =? 43))%N.

(** [[\*\-\+]\s] at the head. *)
Definition bullet_at (s : str) : bool :=
  match s with
  | c :: w :: _ => bullet_char c && isspace w
  | _ => false
  end.

(** [\s*] followed by [p]: some run of leading whitespace after which
    [p] matches. *)
Fixpoint ws_then (p : str -> bool) (s : str) : bool :=
  p s || match s with
         | c :: s' => isspace c && ws_then p s'
         | [] => false
         end.

Section Digits.
(** [\d] matches the decimal digits of the interpreter's Unicode
    tables; the ASCII ones are [0]-[9], the others are a parameter. *)
Variable nd_nonascii : char -> bool.

Definition is_decimal (c : char) : bool :=
  if (c <? 128)%N then ((48 <=? c) && (c <=? 57))%N else nd_nonascii c.

(** The rest of [\d+\.\s] once one digit is read. *)
Fixpoint after_digit (s : str) : bool :=
  match s with
  | c :: s' =>
      ((c =? 46)%N && match s' with w :: _ => isspace w | [] => false end)
      || (is_decimal c && after_digit s')
  | [] => false
  end.

(** [\d+\.\s] at the head. *)
Definition number_at (s : str) : bool :=
  match s with
  | c :: s' => is_decimal c && after_digit s'
  | [] => false
  end.
End Digits.

(** [not lines[j].startswith('```')] *)
Definition not_fence (l : str) : bool := negb (startswith (lit "```") l).

(** [lines[i]], Python indexing; every use is guarded by the loop tests. *)
Definition item (lines : list str) (i : Z) : str :=
  let n := Z.of_nat (length lines) in
  if (i <? 0)%Z then nth (Z.to_nat (n + i)) lines []
  else nth (Z.to_nat i) lines [].

(** The lines a [while j < len(lines) and cond(lines[j]): j += 1] loop
    walks over, from [j]. *)
Definition run_from (cond : str -> bool) (lines : list str) (j : Z) : list str :=
  takewhile cond (skipn (Z.to_nat j) lines).

End Line.

(** [len(l)] as a Python integer. *)
Definition zlen {A : Type} (l : list A) : Z := Z.of_nat (length l).

Section Convert.
Variable nd_nonascii : char -> bool.

Local Open Scope Z_scope.

(** One turn of the [while i < len(lines)] loop at cursor [i]: the
    blocks added and the cursor after the closing [i += 1]. *)
Definition step (lines : list str) (i : Z) : list block * Z :=
  let line := strip (Line.item lines i) in
  if startswith (lit "#") line then
    let level := length (takewhile (N.eqb 35) line) in
    if (level <=? 6)%nat then
      let title_text := strip (skipn level line) in
      let title_text := Re.sub_stars title_text in
      ([Heading level title_text], i + 1)
    else ([Paragraph (process_markdown_text line)], i + 1)
  else if Line.is_rule line then ([Rule], i + 1)
  else if startswith (lit "|") line && (i + 1 <? zlen lines)
          && startswith (lit "|") (strip (Line.item lines (i + 1))) then
    let more := Line.run_from (fun l => startswith (lit "|") (strip l)) lines (i + 1) in
    let table_lines := line :: map strip more in
    let j := i + 1 + zlen more in
    let table_md := join [NL] table_lines in
    ([create_table table_md], (j - 1) + 1)
  else if Line.bullet_at line then
    let found := Line.run_from (Line.ws_then Line.bullet_at) lines i in
    let list_items :=
      map (fun l => (skipn 2 (strip l), (length l - length (lstrip l))%nat)) found in
    let j := i + zlen found in
    (map (fun it => BulletItem (process_markdown_text (fst it))) list_items,
     (j - 1) + 1)
  else if Line.number_at nd_nonascii line then
    let found := Line.run_from (Line.ws_then (Line.number_at nd_nonascii)) lines i in
    let list_items := map (fun l => skipn 3 (strip l)) found in
    let j := i + zlen found in
    (map (fun it => NumberItem (process_markdown_text it)) list_items,
     (j - 1) + 1)
  else if startswith (lit "```") line then
    let code_lines := Line.run_from Line.not_fence lines (i + 1) in
    let j := i + 1 + zlen code_lines in
    let code_text := join [NL] code_lines in
    ([CodeBlock code_text], j + 1)
  else if startswith (lit ">") line then
    let found := Line.run_from (fun l => startswith (lit ">") (strip l)) lines i in
    let quote_lines := map (fun l => strip (skipn 1 (strip l))) found in
    let j := i + zlen found in
    let quote_text := join (lit " ") quote_lines in
    ([Quote (process_markdown_text quote_text)], (j - 1) + 1)
  else if TableM.nonempty line then
    ([Paragraph (process_markdown_text line)], i + 1)
  else ([Blank], i + 1).

(** The [while] loop; [None] when [fuel] turns do not reach the end. *)
Fixpoint loop (fuel : nat) (lines : list str) (i : Z) (doc : list block)
    : option (list block) :=
  if i <? zlen lines then
    match fuel with
    | O => None
    | S k => let '(bs, i') := step lines i in loop k lines i' (doc ++ bs)
    end
  else Some doc.

(** The document built from the text of the input file. *)
Definition document_of (md_content : str) : option (list block) :=
  let lines := split NL md_content in
  loop (length lines) lines 0 [].

End Convert.

(** ** Paths *)

Module Path.

Local Open Scope Z_scope.

(** [p.rfind(c)]: the highest index of [c], or [-1]. *)
Fixpoint rfind_from (c : char) (p : str) (pos : Z) : Z :=
  match p with
  | [] => -1
  | x :: p' =>
      let r := rfind_from c p' (pos + 1) in
      if 0 <=? r then r else if (x =? c)%N then pos else -1
  end.

Definition rfind (c : char) (p : str) : Z := rfind_from c p 0.

(** [genericpath._splitext(p, sep, altsep, extsep)] *)
Definition _splitext (p : str) (sep : char) (altsep : option char) (extsep : char)
    : str * str :=
  let sepIndex := rfind sep p in
  let sepIndex :=
    match altsep with
    | Some a => Z.max sepIndex (rfind a p)
    | None => sepIndex
    end in
  let dotIndex := rfind extsep p in
  if sepIndex <? dotIndex then
    (* the loop that skips leading dots returns at the first other character *)
    let filename := slice p (Z.to_nat (sepIndex + 1)) (Z.to_nat dotIndex) in
    if existsb (fun c => negb (c =? extsep)%N) filename
    then (firstn (Z.to_nat dotIndex) p, skipn (Z.to_nat dotIndex) p)
    else (p, [])
  else (p, []).

(** The two flavours of [os.path]. *)
Inductive os_name := posix | nt.

Definition sep (os : os_name) : char :=
  match os with posix => 47%N | nt => 92%N end.

Definition altsep (os : os_name) : option char :=
  match os with posix => None | nt => Some 47%N end.

Definition is_sep (os : os_name) (c : char) : bool :=
  (c =? sep os)%N || match altsep os with Some a => (c =? a)%N | None => false end.

(** [os.path.splitext(p)] *)
Definition splitext (os : os_name) (p : str) : str * str :=
  _splitext p (sep os) (altsep os) 46%N.

(** Neither a dot nor a separator. *)
Definition plain_char (os : os_name) (c : char) : bool :=
  negb (c =? 46)%N && negb (is_sep os c).

End Path.

(** [not docx_file_path] for an argument that is [None] or a string. *)
Definition py_not (p : option str) : bool :=
  match p with
  | None => true
  | Some [] => true
  | Some _ => false
  end.

(** The output path [convert_markdown_to_word] settles on. *)
Definition resolve_output (os : Path.os_name) (md_file_path : str)
    (docx_file_path : option str) : str :=
  match docx_file_path with
  | Some (c :: p) => c :: p
  | _ => fst (Path.splitext os md_file_path) ++ lit ".docx"
  end.

(** ** The command line *)

(** What a call returns or raises; [Raise] carries [str(e)]. *)
Inductive result (A : Type) :=
| Ok (a : A)
| Raise (msg : str).

Arguments Ok {A} a.
Arguments Raise {A} msg.

(** The files as the script sees them: [os.path.exists], reading the
    whole input as UTF-8 text, and the library building and saving the
    document, which yields the files afterwards and the exception
    raised on the way, if any. *)
Class Files (fs : Type) := {
  path_exists : fs -> str -> bool;
  read_text : fs -> str -> result str;
  save_docx : fs -> str -> list block -> fs * option str
}.

Record outcome (fs : Type) := Outcome {
  exit_code : Z;
  printed : list str;
  files : fs
}.

Arguments Outcome {fs} _ _ _.
Arguments exit_code {fs} _.
Arguments printed {fs} _.
Arguments files {fs} _.

Module Msg.
Definition usage (prog : str) : str :=
  [20351; 29992; 26041; 27861; 58; 32]%N ++ prog ++
  [32; 60; 36755; 20837; 30340; 77; 97; 114; 107; 100; 111; 119; 110;
   25991; 20214; 36335; 24452; 62; 32; 91; 36755; 20986; 30340; 87; 111;
   114; 100; 25991; 20214; 36335; 24452; 93]%N.

Definition not_found (path : str) : str :=
  [38169; 35823; 58; 32; 25991; 20214; 32; 39]%N ++ path ++
  [39; 32; 19981; 23384; 22312]%N.

Definition saved (path : str) : str :=
  [36716; 25442; 25104; 21151; 33; 32; 87; 111; 114; 100; 25991; 26723;
   24050; 20445; 23384; 21040; 58; 32]%N ++ path.

Definition failed (e : str) : str :=
  [36716; 25442; 36807; 31243; 20013; 20986; 38169; 58; 32]%N ++ e.
End Msg.

Section Main.
Variable nd_nonascii : char -> bool.
Variable os : Path.os_name.
Context {fs : Type} `{Files fs}.

(** [convert_markdown_to_word]: the files afterwards with the path
    returned or the exception raised; [None] if the line loop does not
    end. *)
Definition convert_markdown_to_word (w : fs) (md_file_path : str)
    (docx_file_path : option str) : option (fs * result str) :=
  let docx_file_path := resolve_output os md_file_path docx_file_path in
  match read_text w md_file_path with
  | Raise e => Some (w, Raise e)
  | Ok md_content =>
      match document_of nd_nonascii md_content with
      | None => None
      | Some document =>
          match save_docx w docx_file_path document with
          | (w', Some e) => Some (w', Raise e)
          | (w', None) => Some (w', Ok docx_file_path)
          end
      end
  end.

(** [main()] with [sys.argv = prog :: args]: exit status, lines
    printed and files afterwards. *)
Definition main (prog : str) (args : list str) (w : fs) : option (outcome fs) :=
  match args with
  | [] => Some (Outcome 1 [Msg.usage prog] w)
  | md_file_path :: rest =>
      if negb (path_exists w md_file_path) then
        Some (Outcome 1 [Msg.not_found md_file_path] w)
      else
        let docx_file_path := hd_error rest in
        match convert_markdown_to_word w md_file_path docx_file_path with
        | None => None
        | Some (w', Ok output_path) => Some (Outcome 0 [Msg.saved output_path] w')
        | Some (w', Raise e) => Some (Outcome 1 [Msg.failed e] w')
        end
  end.

End Main.

(** A small file store: readable text files and the documents saved. *)
Module Store.
Inductive entry := Text (content : str) | Docx (document : list block).
Definition t := list (str * entry).

Fixpoint lookup (w : t) (p : str) : option entry :=
  match w with
  | [] => None
  | (q, e) :: w' => if str_eqb p q then Some e else lookup w' p
  end.

Definition exists_ (w : t) (p : str) : bool :=
  match lookup w p with Some _ => true | None => false end.

Definition read (w : t) (p : str) : result str :=
  match lookup w p with
  | Some (Text c) => Ok c
  | _ => Raise (lit "cannot read")
  end.

Definition save (w : t) (p : str) (d : list block) : t * option str :=
  ((p, Docx d) :: w, None).
End Store.

#[export] Instance store_files : Files Store.t :=
  {| path_exists := Store.exists_; read_text := Store.read; save_docx := Store.save |}.

(** ** Notation for the statements *)

(** A text given by its lines. *)
Definition lines_text (ls : list string) : str := join [NL] (map lit ls).

(** Kind and character range of an accepted match. *)
Definition span_of (f : format) : ftype * nat * nat := (f_type f, f_start f, f_end f).

(** ** Notions used by the further properties *)

(** The Plain run of a piece of text between matches: none when the
    piece is empty. *)
Definition plain_run (s : str) : list run :=
  match s with
  | [] => []
  | _ => [Run s Plain]
  end.

(** Text in which the code point [c] does not occur. *)
Definition without (c : char) (s : str) : bool := forallb (fun x => negb (x =? c)%N) s.

(** The code points at which a match of each inline pattern can start. *)
Definition open_bold (c : char) : bool := ((c =? 42) || (c =? 95))%N.
Definition open_code (c : char) : bool := (c =? 96)%N.
Definition open_link (c : char) : bool := (c =? 91)%N.

(** Order of two formats by their start. *)
Definition start_le (f g : format) : Prop := f_start f <= f_start g.

(** Two character ranges that are apart, or the second strictly around
    the first. *)
Definition apart_or_enclosed (f g : format) : Prop :=
  f_end f <= f_start g \/ f_end g <= f_start f
  \/ (f_start g < f_start f /\ f_end f < f_end g).

(** Start and end of a match found by [finditer]. *)
Definition m_start {A : Type} (m : nat * nat * A) : nat := fst (fst m).
Definition m_end {A : Type} (m : nat * nat * A) : nat := snd (fst m).

(** What the search loops keep true of [formats]. *)
Definition formats_inv (formats : list format) : Prop :=
  Forall (fun f => f_start f < f_end f) formats
  /\ ForallOrdPairs apart_or_enclosed formats.

(** What the two guarded loops do with one candidate. *)
Definition guarded {A : Type} (add : list format -> nat * nat * A -> list format) : Prop :=
  forall formats m,
    add formats m = formats
    \/ (is_valid (m_start m) (m_end m) formats = true
        /\ exists f, add formats m = formats ++ [f]
                     /\ f_start f = m_start m /\ f_end f = m_end m).

(** The dictionary made of a bold match. *)
Definition mk_bold (text : str) (m : nat * nat * str) : format :=
  let '(s, e, g) := m in Format s e g None TBold (slice text s e).

(** The rows [create_table] keeps out of the rows it is given. *)
Definition drop_separator (rows : list str) : list str :=
  match rows with
  | header_row :: r1 :: rest =>
      if TableM.is_separator r1 then header_row :: rest else rows
  | _ => rows
  end.

(** A line as the loop collects it for a table, list or quote: stripped,
    not empty, and without a newline. *)
Definition collected (l : str) : Prop := strip l = l /\ l <> [] /\ ~ In NL l.

(** A collecting loop stops at [rest]: there is no line left, or the
    next one fails the test. *)
Definition stops (cond : str -> bool) (rest : list str) : bool :=
  match rest with
  | [] => true
  | r :: _ => negb (cond r)
  end.

(** The tests of the three collecting loops that start at a stripped line. *)
Definition pipe_line (l : str) : bool := startswith (lit "|") (strip l).
Definition quote_line (l : str) : bool := startswith (lit ">") (strip l).

(** The first code points that send a stripped line to a branch other
    than the paragraph: [#], [|], [*], [-], [+], a backtick, [>], [_]
    and the decimal digits. *)
Definition special (nd_nonascii : char -> bool) (c : char) : bool :=
  ((c =? 35) || (c =? 124) || (c =? 42) || (c =? 45) || (c =? 43)
   || (c =? 96) || (c =? 62) || (c =? 95))%N
  || Line.is_decimal nd_nonascii c.

(** The index [_splitext] compares the last dot with: the last
    separator of either kind, or [-1]. *)
Definition sep_index (os : Path.os_name) (p : str) : Z :=
  match Path.altsep os with
  | Some a => Z.max (Path.rfind (Path.sep os) p) (Path.rfind a p)
  | None => Path.rfind (Path.sep os) p
  end.

(** A directory prefix: empty, or ending with a separator. *)
Definition dir_prefix (os : Path.os_name) (pre : str) : bool :=
  match rev pre with
  | [] => true
  | c :: _ => Path.is_sep os c
  end.

(** A code point other than the dot. *)
Definition not_dot (c : char) : bool := negb (c =? 46)%N.

(** A run with some formatting, and the run emitted for a format. *)
Definition formatted (r : run) : bool :=
  match run_style r with
  | Plain => false
  | _ => true
  end.

Definition run_of_format (f : format) : run :=
  Run (f_content f) (style_of (f_type f)).

(** * Properties *)

(** ** The inline formatter *)

(** C2 (the code departs from the claim): accepted matches can
    intersect.  The validity test only asks whether the start or the end
    of the candidate falls inside an accepted match, so a candidate that
    strictly encloses an accepted match is kept: inline code around
    [__b__], and a link around inline code. *)
Theorem enclosing_match_accepted :
  map span_of (accepted (lit "`a __b__ c`")) = [(TCode, 0, 11); (TBold, 3, 8)]
  /\ map span_of (accepted (lit "[`x`](u)")) = [(TLink, 0, 8); (TCode, 1, 4)].
Proof. split; vm_compute; reflexivity. Qed.

(** C4 (the code departs from the claim): with an enclosing match
    accepted, the runs repeat text: their concatenation is longer than
    the line itself, so it is not the line with markers removed. *)
Theorem runs_repeat_text :
  let line := lit "`a __b__ c`" in
  process_markdown_text line =
    [Run (lit "a __b__ c") Code; Run (lit "b") Bold; Run (lit " c`") Plain]
  /\ texts (process_markdown_text line) = lit "a __b__ cb c`"
  /\ length line < length (texts (process_markdown_text line)).
Proof. repeat split; vm_compute; lia. Qed.

(** ** Tables *)

(** C6: the three-line table of the specification gives a 2 x 2 table
    with cells [A], [B] and [1], [2]; the separator row leaves no row. *)
Theorem table_roundtrip (nd_nonascii : char -> bool) :
  document_of nd_nonascii (lines_text ["| A | B |"; "|---|---|"; "| 1 | 2 |"]%string)
  = Some [Table 2 2 [[[Run (lit "A") Plain]; [Run (lit "B") Plain]];
                     [[Run (lit "1") Plain]; [Run (lit "2") Plain]]]].
Proof. vm_compute. reflexivity. Qed.

(** ** Paths *)

Module PathFacts.
Import Path.
Local Open Scope Z_scope.

Lemma rfind_from_spec (c : char) (p : str) :
  forall pos, 0 <= pos ->
    let r := rfind_from c p pos in
    (r = -1 \/ pos <= r < pos + Z.of_nat (length p))
    /\ (forall k : nat, r < pos + Z.of_nat k -> ~ In c (skipn k p))
    /\ (r <> -1 -> nth_error p (Z.to_nat (r - pos)) = Some c).
Proof.
  induction p as [|x p IH]; intros pos Hpos; cbn [rfind_from].
  - cbn. split; [left; reflexivity|split].
    + intros k _. rewrite skipn_nil. intros [].
    + intros Hr. congruence.
  - specialize (IH (pos + 1) ltac:(lia)). cbv zeta in IH.
    destruct IH as (Hrange & Hnone & Hat).
    set (r := rfind_from c p (pos + 1)) in *.
    cbn [length]. cbv zeta.
    destruct (Z.leb_spec 0 r) as [Hr|Hr].
    + split; [right; lia|split].
      * intros [|k] Hk; [lia|]. cbn [skipn]. apply Hnone. lia.
      * intros _. replace (Z.to_nat (r - pos)) with (S (Z.to_nat (r - (pos + 1)))) by lia.
        cbn [nth_error]. apply Hat. lia.
    + assert (r = -1) as Hr1 by lia.
      destruct (N.eqb_spec x c) as [->|Hx].
      * split; [right; lia|split].
        -- intros [|k] Hk; [lia|]. cbn [skipn]. apply Hnone. lia.
        -- intros _. replace (pos - pos) with 0 by lia. reflexivity.
      * split; [left; reflexivity|split].
        -- intros [|k] Hk.
           ++ cbn [skipn]. intros [Hin|Hin]; [congruence|].
              apply (Hnone 0%nat); [lia|exact Hin].
           ++ cbn [skipn]. apply Hnone. lia.
        -- intros Hr'. congruence.
Qed.

Lemma rfind_spec (c : char) (p : str) :
  (rfind c p = -1 \/ 0 <= rfind c p < Z.of_nat (length p))
  /\ (forall k : nat, rfind c p < Z.of_nat k -> ~ In c (skipn k p))
  /\ (rfind c p <> -1 -> nth_error p (Z.to_nat (rfind c p)) = Some c).
Proof.
  unfold rfind. destruct (rfind_from_spec c p 0 ltac:(lia)) as (A & B & C).
  split; [lia|split].
  - intros k Hk. apply B. lia.
  - intros Hr. specialize (C Hr). now rewrite Z.sub_0_r in C.
Qed.

Lemma split_at (p : str) (d : nat) (c : char) :
  nth_error p d = Some c -> skipn d p = c :: skipn (S d) p.
Proof.
  revert d. induction p as [|x p IH]; intros [|d] H; cbn in *; try discriminate.
  - congruence.
  - now apply IH.
Qed.

(** What [os.path.splitext] returns: the two parts make up the path,
    and the extension is empty or a dot followed by neither a dot nor a
    separator. *)
Lemma splitext_spec (os : os_name) (p : str) :
  let '(root, ext) := splitext os p in
  p = root ++ ext
  /\ (ext = [] \/ exists e, ext = 46%N :: e /\ forallb (plain_char os) e = true).
Proof.
  unfold splitext, _splitext.
  set (sepIndex := match altsep os with
                   | Some a => Z.max (rfind (sep os) p) (rfind a p)
                   | None => rfind (sep os) p
                   end).
  destruct (Z.ltb_spec sepIndex (rfind 46%N p)) as [Hlt|Hge];
    [|split; [now rewrite app_nil_r | now left]].
  destruct (existsb _ _);
    [|split; [now rewrite app_nil_r | now left]].
  destruct (rfind_spec 46%N p) as (Hrange & Hnodot & Hat).
  destruct (rfind_spec (sep os) p) as (Hs & _ & _).
  assert (0 <= rfind 46%N p) as Hd.
  { subst sepIndex. destruct (altsep os); lia. }
  set (d := Z.to_nat (rfind 46%N p)) in *.
  split; [symmetry; apply firstn_skipn|].
  right. exists (skipn (S d) p). split.
  - apply split_at. apply Hat. lia.
  - apply forallb_forall. intros x Hx. unfold plain_char, is_sep.
    destruct (N.eqb_spec x 46%N) as [->|_].
    { exfalso. apply (Hnodot (S d)); [lia|exact Hx]. }
    assert (forall c, rfind c p <= sepIndex -> (x =? c)%N = false) as Hsep.
    { intros c Hc. destruct (N.eqb_spec x c) as [->|]; [|reflexivity].
      exfalso. destruct (rfind_spec c p) as (_ & Hno & _).
      apply (Hno (S d)); [lia|exact Hx]. }
    cbn [negb andb]. rewrite (Hsep (sep os)) by (subst sepIndex; destruct (altsep os); lia).
    subst sepIndex. destruct (altsep os) as [a|]; [|reflexivity].
    rewrite (Hsep a) by lia. reflexivity.
Qed.

End PathFacts.

(** C9: without an output argument (absent, or empty) the output path is
    the input path with its extension, as [os.path.splitext] delimits
    it, replaced by [.docx]: the extension is the last dot of the final
    component with what follows it, or nothing.  [report.md] gives
    [report.docx]. *)
Theorem default_output_path (os : Path.os_name) (md_file_path : str) (out : option str) :
  py_not out = true ->
  (exists root ext,
      md_file_path = root ++ ext
      /\ (ext = [] \/ exists e, ext = 46%N :: e /\ forallb (Path.plain_char os) e = true)
      /\ Path.splitext os md_file_path = (root, ext)
      /\ resolve_output os md_file_path out = root ++ lit ".docx")
  /\ resolve_output os (lit "report.md") out = lit "report.docx".
Proof.
  intros Hout.
  assert (forall p, resolve_output os p out = fst (Path.splitext os p) ++ lit ".docx") as Hres.
  { intros p. destruct out as [[|c q]|]; try reflexivity. discriminate. }
  split.
  - pose proof (PathFacts.splitext_spec os md_file_path) as Hs.
    destruct (Path.splitext os md_file_path) as [root ext] eqn:E.
    destruct Hs as (Hp & Hext). exists root, ext.
    repeat split; try assumption. rewrite Hres, E. reflexivity.
  - rewrite Hres. destruct os; vm_compute; reflexivity.
Qed.

Lemma default_output_path_witness :
  resolve_output Path.posix (lit "notes/2024.v1/report.md") None
  = lit "notes/2024.v1/report.docx".
Proof.
  destruct (default_output_path Path.posix (lit "notes/2024.v1/report.md") None eq_refl)
    as [(root & ext & Hp & Hext & Hs & Hr) _].
  rewrite Hr. vm_compute in Hs. injection Hs as <- _. reflexivity.
Defined.

(** ** Stripping and the line patterns *)

Module LineFacts.
Import Line.

Lemma dropwhile_stop (c : char) (u v : str) :
  isspace c = false ->
  dropwhile isspace (u ++ c :: v) = dropwhile isspace u ++ c :: v.
Proof.
  intros Hc. induction u as [|x u IH]; cbn.
  - now rewrite Hc.
  - destruct (isspace x); [exact IH | reflexivity].
Qed.

Lemma dropwhile_decomp (s : str) :
  exists a, s = a ++ dropwhile isspace s /\ forallb isspace a = true.
Proof.
  induction s as [|x s (a & Hs & Ha)]; cbn.
  - now exists [].
  - destruct (isspace x) eqn:Hx.
    + exists (x :: a). cbn. rewrite Hx, Ha. split; [now f_equal | reflexivity].
    + now exists [].
Qed.

Lemma forallb_rev (f : char -> bool) (l : str) :
  forallb f (rev l) = forallb f l.
Proof.
  induction l as [|x l IH]; cbn; [reflexivity|].
  rewrite forallb_app, IH. cbn. rewrite andb_true_r. apply andb_comm.
Qed.

(** A line is its stripped form between two runs of whitespace. *)
Lemma strip_decomp (s : str) :
  exists a b, s = a ++ strip s ++ b
              /\ forallb isspace a = true /\ forallb isspace b = true.
Proof.
  unfold strip, lstrip, rstrip.
  destruct (dropwhile_decomp (rev s)) as (b & Hb & Hbs).
  destruct (dropwhile_decomp (rev (dropwhile isspace (rev s)))) as (a & Ha & Has).
  exists a, (rev b). split; [|split].
  - rewrite app_assoc, <- Ha, <- rev_app_distr, <- Hb. now rewrite rev_involutive.
  - exact Has.
  - now rewrite forallb_rev.
Qed.

Lemma ws_then_skip (p : str -> bool) (a t : str) :
  forallb isspace a = true -> p t = true -> ws_then p (a ++ t) = true.
Proof.
  intros Ha Hp. induction a as [|x a IH]; cbn [app].
  - destruct t; cbn; now rewrite Hp.
  - cbn in Ha. apply andb_prop in Ha as [Hx Ha].
    cbn [ws_then]. rewrite Hx, (IH Ha). cbn. apply orb_true_r.
Qed.

Lemma bullet_at_app (t b : str) :
  bullet_at t = true -> bullet_at (t ++ b) = true.
Proof. destruct t as [|c [|w t]]; cbn; congruence. Qed.

Lemma after_digit_app (nd : char -> bool) (t b : str) :
  after_digit nd t = true -> after_digit nd (t ++ b) = true.
Proof.
  induction t as [|c t IH]; cbn [after_digit app]; [discriminate|].
  intros H. apply orb_prop in H as [H|H].
  - apply andb_prop in H as [Hc Hw]. rewrite Hc.
    destruct t as [|w t]; [discriminate|]. cbn [app]. now rewrite Hw.
  - apply andb_prop in H as [Hc Ht]. rewrite Hc, (IH Ht). cbn. apply orb_true_r.
Qed.

Lemma number_at_app (nd : char -> bool) (t b : str) :
  number_at nd t = true -> number_at nd (t ++ b) = true.
Proof.
  destruct t as [|c t]; cbn [number_at app]; [discriminate|].
  intros H. apply andb_prop in H as [Hc Ht].
  now rewrite Hc, (after_digit_app nd t b Ht).
Qed.

(** A line whose stripped form starts an item also matches the
    indented pattern that the collecting loop uses. *)
Lemma ws_then_of_strip (p : str -> bool) (s : str) :
  (forall t b, p t = true -> p (t ++ b) = true) ->
  p (strip s) = true -> ws_then p s = true.
Proof.
  intros Happ Hp. destruct (strip_decomp s) as (a & b & Hs & Ha & _).
  rewrite Hs. apply ws_then_skip; [exact Ha|]. now apply Happ.
Qed.

Lemma skipn_item (lines : list str) (i : Z) :
  (0 <= i < Z.of_nat (length lines))%Z ->
  skipn (Z.to_nat i) lines = item lines i :: skipn (S (Z.to_nat i)) lines.
Proof.
  intros Hi. unfold item. destruct (Z.ltb_spec i 0) as [?|_]; [lia|].
  assert (Z.to_nat i < length lines)%nat as Hn by lia.
  revert Hn. generalize (Z.to_nat i) as n. clear Hi.
  induction lines as [|x lines IH]; intros [|n] Hn; cbn in *; try lia.
  - reflexivity.
  - apply IH. lia.
Qed.

Lemma run_from_first (cond : str -> bool) (lines : list str) (i : Z) :
  (0 <= i < Z.of_nat (length lines))%Z ->
  cond (item lines i) = true ->
  (1 <= length (run_from cond lines i))%nat.
Proof.
  intros Hi Hc. unfold run_from. rewrite (skipn_item lines i Hi).
  cbn. rewrite Hc. cbn. lia.
Qed.

End LineFacts.

(** ** The line loop advances *)

Lemma step_progress (nd : char -> bool) (lines : list str) (i : Z) :
  (0 <= i < Z.of_nat (length lines))%Z -> (i < snd (step nd lines i))%Z.
Proof.
  intros Hi. unfold step, zlen.
  set (line := strip (Line.item lines i)).
  destruct (startswith (lit "#") line).
  { destruct (_ <=? 6)%nat; cbn [snd]; lia. }
  destruct (Line.is_rule line); [cbn [snd]; lia|].
  destruct (_ && _ && _); [cbn [snd]; lia|].
  destruct (Line.bullet_at line) eqn:Hb.
  { cbn [snd].
    pose proof (LineFacts.run_from_first (Line.ws_then Line.bullet_at) lines i Hi
                  (LineFacts.ws_then_of_strip _ _ LineFacts.bullet_at_app Hb)).
    lia. }
  destruct (Line.number_at nd line) eqn:Hn.
  { cbn [snd].
    pose proof (LineFacts.run_from_first (Line.ws_then (Line.number_at nd)) lines i Hi
                  (LineFacts.ws_then_of_strip _ _ (LineFacts.number_at_app nd) Hn)).
    lia. }
  destruct (startswith (lit "```") line); [cbn [snd]; lia|].
  destruct (startswith (lit ">") line) eqn:Hq.
  { cbn [snd].
    pose proof (LineFacts.run_from_first
                  (fun l => startswith (lit ">") (strip l)) lines i Hi Hq).
    lia. }
  destruct (TableM.nonempty line); cbn [snd]; lia.
Qed.

Lemma loop_total (nd : char -> bool) (lines : list str) :
  forall fuel i doc,
    (0 <= i)%Z -> (Z.of_nat (length lines) - i <= Z.of_nat fuel)%Z ->
    exists doc', loop nd fuel lines i doc = Some doc'.
Proof.
  induction fuel as [|k IH]; intros i doc Hi Hfuel; cbn [loop].
  - unfold zlen; destruct (Z.ltb_spec i (Z.of_nat (length lines))); [lia|]. now exists doc.
  - unfold zlen; destruct (Z.ltb_spec i (Z.of_nat (length lines))) as [Hlt|]; [|now exists doc].
    pose proof (step_progress nd lines i (conj Hi Hlt)) as Hp.
    destruct (step nd lines i) as [bs i']. cbn [snd] in Hp.
    apply IH; lia.
Qed.

Lemma loop_more_fuel (nd : char -> bool) (lines : list str) :
  forall fuel i doc doc',
    loop nd fuel lines i doc = Some doc' ->
    forall fuel', (fuel <= fuel')%nat -> loop nd fuel' lines i doc = Some doc'.
Proof.
  induction fuel as [|k IH]; intros i doc doc' H fuel' Hle.
  - cbn [loop] in H. destruct fuel'; cbn [loop];
      destruct (i <? zlen lines)%Z; congruence.
  - destruct fuel' as [|k']; [lia|]. cbn [loop] in *.
    destruct (i <? zlen lines)%Z; [|exact H].
    destruct (step nd lines i) as [bs i']. apply (IH _ _ _ H). lia.
Qed.

Lemma document_of_total (nd : char -> bool) (md_content : str) :
  exists doc, document_of nd md_content = Some doc.
Proof. unfold document_of. apply loop_total; lia. Qed.

(** ** Fenced blocks *)

Module FenceFacts.
Import Line.

Lemma rstrip_keep (a t : str) (c : char) :
  isspace c = false -> rstrip (a ++ c :: t) = a ++ c :: rstrip t.
Proof.
  intros Hc. unfold rstrip.
  rewrite rev_app_distr. cbn [rev]. rewrite <- app_assoc. cbn [app].
  rewrite (LineFacts.dropwhile_stop c _ _ Hc).
  rewrite rev_app_distr. cbn [rev]. rewrite rev_involutive, <- app_assoc.
  reflexivity.
Qed.

Lemma startswith_app (p s : str) :
  startswith p s = true -> exists t, s = p ++ t.
Proof.
  revert s. induction p as [|x p IH]; intros s H.
  - now exists s.
  - destruct s as [|y s]; cbn [startswith] in H; [discriminate|].
    apply andb_prop in H as [Hx Hp]. apply N.eqb_eq in Hx as ->.
    destruct (IH s Hp) as [t ->]. now exists t.
Qed.

Lemma strip_fence (s : str) :
  startswith (lit "```") s = true -> startswith (lit "```") (strip s) = true.
Proof.
  intros H. destruct (startswith_app _ _ H) as [t ->].
  unfold strip.
  rewrite (rstrip_keep [96; 96]%N t 96%N eq_refl
           : rstrip (lit "```" ++ t) = lit "```" ++ rstrip t).
  reflexivity.
Qed.

(** A line that opens a fence falls through the five tests before it. *)
Lemma fence_falls_through (nd : char -> bool) (line : str) :
  startswith (lit "```") line = true ->
  startswith (lit "#") line = false
  /\ is_rule line = false
  /\ startswith (lit "|") line = false
  /\ bullet_at line = false
  /\ number_at nd line = false.
Proof.
  intros H. destruct (startswith_app _ _ H) as [t ->].
  repeat split; reflexivity.
Qed.

Lemma step_fence (nd : char -> bool) (lines : list str) (i : Z) :
  startswith (lit "```") (strip (item lines i)) = true ->
  step nd lines i =
    ([CodeBlock (join [NL] (run_from not_fence lines (i + 1)))],
     (i + 1 + Z.of_nat (length (run_from not_fence lines (i + 1))) + 1)%Z).
Proof.
  intros H. unfold step.
  destruct (fence_falls_through nd _ H) as (H1 & H2 & H3 & H4 & H5).
  rewrite H1, H2, H3, H4, H5, H. reflexivity.
Qed.

Lemma takewhile_all {A : Type} (f : A -> bool) (l : list A) :
  forallb f l = true -> takewhile f l = l.
Proof.
  induction l as [|x l IH]; cbn; [reflexivity|].
  intros H. apply andb_prop in H as [Hx Hl]. now rewrite Hx, IH.
Qed.

Lemma takewhile_stop {A : Type} (f : A -> bool) (a r : list A) (c : A) :
  forallb f a = true -> f c = false -> takewhile f (a ++ c :: r) = a.
Proof.
  intros Ha Hc. induction a as [|x a IH]; cbn in *.
  - now rewrite Hc.
  - apply andb_prop in Ha as [Hx Ha]. now rewrite Hx, IH.
Qed.

Lemma skipn_past {A : Type} (pre : list A) (x : A) (l : list A) :
  skipn (S (length pre)) (pre ++ x :: l) = l.
Proof. induction pre as [|y pre IH]; cbn in *; [reflexivity | exact IH]. Qed.

Lemma item_after (pre : list str) (x : str) (l : list str) :
  item (pre ++ x :: l) (Z.of_nat (length pre)) = x.
Proof.
  unfold item. destruct (Z.ltb_spec (Z.of_nat (length pre)) 0) as [?|_]; [lia|].
  rewrite Nat2Z.id. clear. induction pre as [|y pre IH]; cbn; [reflexivity | exact IH].
Qed.

End FenceFacts.

(** C7: a fence opened by a line that starts with three backticks takes
    the lines up to the next line that starts with three backticks; the
    block holds the lines in between joined by newlines, and the cursor
    moves past the closing line, which adds nothing.  The two-line block
    of the specification gives [line1\nline2]. *)
Theorem fenced_block (nd_nonascii : char -> bool)
    (pre : list str) (opening : str) (inner : list str) (closing : str) (rest : list str) :
  startswith (lit "```") opening = true ->
  forallb Line.not_fence inner = true ->
  startswith (lit "```") closing = true ->
  step nd_nonascii (pre ++ opening :: inner ++ closing :: rest) (Z.of_nat (length pre))
  = ([CodeBlock (join [NL] inner)],
     Z.of_nat (length (pre ++ opening :: inner ++ [closing])))
  /\ document_of nd_nonascii (lines_text ["```"; "line1"; "line2"; "```"]%string)
     = Some [CodeBlock (lit "line1" ++ [NL] ++ lit "line2")].
Proof.
  intros Hopen Hinner Hclose. split; [|vm_compute; reflexivity].
  rewrite FenceFacts.step_fence.
  2:{ rewrite FenceFacts.item_after. now apply FenceFacts.strip_fence. }
  assert (Line.run_from Line.not_fence (pre ++ opening :: inner ++ closing :: rest)
            (Z.of_nat (length pre) + 1) = inner) as ->.
  { unfold Line.run_from.
    replace (Z.to_nat (Z.of_nat (length pre) + 1)) with (S (length pre)) by lia.
    rewrite FenceFacts.skipn_past. apply FenceFacts.takewhile_stop; [exact Hinner|].
    unfold Line.not_fence. now rewrite Hclose. }
  f_equal. rewrite !length_app. cbn [length]. rewrite length_app. cbn [length]. lia.
Qed.

Lemma fenced_block_witness :
  step (fun _ => false)
       ([lit "intro"] ++ lit "```python" :: [lit "x = 1"; lit "  ```"] ++ lit "```" :: [lit "after"])
       1
  = ([CodeBlock (lit "x = 1" ++ [NL] ++ lit "  ```")], 5%Z).
Proof.
  exact (proj1 (fenced_block (fun _ => false) [lit "intro"] (lit "```python")
                  [lit "x = 1"; lit "  ```"] (lit "```") [lit "after"]
                  eq_refl eq_refl eq_refl)).
Defined.

(** C10: every turn of the line loop moves the cursor forward, an
    unterminated fence takes all the lines left and puts the cursor
    past the end, and so the loop ends: with as many turns as there are
    lines it returns a document, for every input. *)
Theorem line_loop_terminates (nd_nonascii : char -> bool) (lines : list str) :
  (forall i, (0 <= i < Z.of_nat (length lines))%Z ->
             (i < snd (step nd_nonascii lines i))%Z)
  /\ (forall i, (0 <= i < Z.of_nat (length lines))%Z ->
        startswith (lit "```") (strip (Line.item lines i)) = true ->
        forallb Line.not_fence (skipn (S (Z.to_nat i)) lines) = true ->
        step nd_nonascii lines i
        = ([CodeBlock (join [NL] (skipn (S (Z.to_nat i)) lines))],
           (Z.of_nat (length lines) + 1)%Z))
  /\ (exists doc, forall fuel, (length lines <= fuel)%nat ->
                               loop nd_nonascii fuel lines 0 [] = Some doc)
  /\ (forall md_content, lines = split NL md_content ->
                         exists doc, document_of nd_nonascii md_content = Some doc).
Proof.
  split; [|split; [|split]].
  - apply step_progress.
  - intros i Hi Hopen Hall. rewrite (FenceFacts.step_fence _ _ _ Hopen).
    unfold Line.run_from. replace (Z.to_nat (i + 1)) with (S (Z.to_nat i)) by lia.
    rewrite (FenceFacts.takewhile_all _ _ Hall). f_equal.
    rewrite length_skipn. lia.
  - destruct (loop_total nd_nonascii lines (length lines) 0%Z [] ltac:(lia) ltac:(lia))
      as [doc Hdoc].
    exists doc. intros fuel Hfuel. exact (loop_more_fuel _ _ _ _ _ _ Hdoc _ Hfuel).
  - intros md_content _. apply document_of_total.
Qed.

Lemma line_loop_terminates_witness :
  (0 < snd (step (fun _ => false) [lit "- a"; lit "  - b"; lit "```"; lit "x"] 0))%Z
  /\ step (fun _ => false) [lit "- a"; lit "  - b"; lit "```"; lit "x"] 2
     = ([CodeBlock (lit "x")], 5%Z).
Proof.
  pose proof (line_loop_terminates (fun _ => false)
                [lit "- a"; lit "  - b"; lit "```"; lit "x"]) as (Hp & Hf & _).
  split.
  - apply Hp. cbn. lia.
  - apply (Hf 2%Z); [cbn; lia | reflexivity | reflexivity].
Defined.

(** ** Headings *)

Module HeadingFacts.

Lemma hashes_counted (n : nat) (rest : str) :
  startswith (lit "#") rest = false ->
  takewhile (N.eqb 35) (repeat 35%N n ++ rest) = repeat 35%N n.
Proof.
  intros Hrest. induction n as [|n IH]; cbn [repeat app takewhile].
  - destruct rest as [|c rest]; [reflexivity|].
    cbn [takewhile]. change (startswith (lit "#") (c :: rest)) with ((35 =? c)%N && true) in Hrest.
    rewrite andb_true_r in Hrest. now rewrite Hrest.
  - rewrite N.eqb_refl. now f_equal.
Qed.

Lemma skipn_hashes (n : nat) (rest : str) :
  skipn n (repeat 35%N n ++ rest) = rest.
Proof. induction n as [|n IH]; cbn; [reflexivity | exact IH]. Qed.

Lemma sub_stars_plain (a s : str) :
  forallb Re.no_star a = true ->
  Re.sub_stars_from 0 (a ++ s) = a ++ Re.sub_stars_from 0 s.
Proof.
  induction a as [|x a IH]; cbn [app forallb]; [reflexivity|].
  intros H. apply andb_prop in H as [Hx Ha].
  cbn [Re.sub_stars_from]. unfold Re.stars_at, Re.delimited.
  change (startswith (lit "**") (x :: a ++ s))
    with ((42 =? x)%N && startswith [42%N] (a ++ s)).
  unfold Re.no_star in Hx. rewrite N.eqb_sym in Hx.
  apply negb_true_iff in Hx. rewrite Hx. cbn [andb]. now rewrite IH.
Qed.

Lemma lazy_until_cons (d : str) (x : char) (s : str) :
  Re.lazy_until d (x :: s) =
    if (x =? NL)%N then None
    else if startswith d s then Some [x]
    else option_map (cons x) (Re.lazy_until d s).
Proof. reflexivity. Qed.

Lemma startswith_stars_cons (y : char) (s : str) :
  (42 =? y)%N = false -> startswith (lit "**") (y :: s) = false.
Proof.
  intros Hy. change (startswith (lit "**") (y :: s)) with ((42 =? y)%N && startswith [42%N] s).
  now rewrite Hy.
Qed.

Lemma inner_char_spec (x : char) :
  Re.inner_char x = true -> (42 =? x)%N = false /\ (x =? NL)%N = false.
Proof.
  unfold Re.inner_char. intros H. apply andb_prop in H as [H1 H2].
  apply negb_true_iff in H1, H2. now rewrite N.eqb_sym.
Qed.

Lemma lazy_until_stars (x : char) (b c : str) :
  forallb Re.inner_char (x :: b) = true ->
  Re.lazy_until (lit "**") (x :: b ++ lit "**" ++ c) = Some (x :: b).
Proof.
  revert x. induction b as [|y b IH]; intros x H; cbn [forallb] in H;
    apply andb_prop in H as [Hx Hb]; apply inner_char_spec in Hx as [_ Hnl];
    rewrite lazy_until_cons, Hnl.
  - reflexivity.
  - pose proof Hb as Hb'. cbn [forallb] in Hb'. apply andb_prop in Hb' as [Hy _].
    apply inner_char_spec in Hy as [Hy _].
    cbn [app]. rewrite (startswith_stars_cons y _ Hy).
    now rewrite (IH y Hb).
Qed.

Lemma sub_stars_skip (u s : str) :
  Re.sub_stars_from (length u) (u ++ s) = Re.sub_stars_from 0 s.
Proof.
  induction u as [|x u IH]; cbn [length app]; [reflexivity|].
  cbn [Re.sub_stars_from]. exact IH.
Qed.

Lemma sub_stars_from_match (x : char) (s g : str) (n : nat) :
  Re.stars_at (x :: s) = Some (g, n) ->
  Re.sub_stars_from 0 (x :: s) = g ++ Re.sub_stars_from (n - 1) s.
Proof. intros H. cbn [Re.sub_stars_from]. now rewrite H. Qed.

Lemma stars_at_pair (x : char) (b c : str) :
  forallb Re.inner_char (x :: b) = true ->
  Re.stars_at (lit "**" ++ (x :: b) ++ lit "**" ++ c)
  = Some (x :: b, 2 + length (x :: b) + 2).
Proof.
  intros Hb. unfold Re.stars_at, Re.delimited.
  change (startswith (lit "**") (lit "**" ++ (x :: b) ++ lit "**" ++ c)) with true.
  cbv iota.
  change (skipn (length (lit "**")) (lit "**" ++ (x :: b) ++ lit "**" ++ c))
    with (x :: b ++ lit "**" ++ c).
  now rewrite (lazy_until_stars x b c Hb).
Qed.

(** [re.sub] unwraps a pair of double asterisks around text without
    asterisks and goes on after it. *)
Lemma sub_stars_pair (a b c : str) :
  forallb Re.no_star a = true ->
  b <> [] ->
  forallb Re.inner_char b = true ->
  Re.sub_stars (a ++ lit "**" ++ b ++ lit "**" ++ c) = a ++ b ++ Re.sub_stars c.
Proof.
  intros Ha Hne Hb. unfold Re.sub_stars. rewrite (sub_stars_plain _ _ Ha). f_equal.
  destruct b as [|x b]; [congruence|].
  pose proof (stars_at_pair x b c Hb) as Hm.
  transitivity ((x :: b) ++ Re.sub_stars_from (2 + length (x :: b) + 2 - 1)
                                              ((([42%N; x] ++ b) ++ lit "**") ++ c)).
  { rewrite <- !app_assoc.
    exact (sub_stars_from_match 42%N _ _ _ Hm). }
  f_equal.
  replace (2 + length (x :: b) + 2 - 1)%nat with (length (([42%N; x] ++ b) ++ lit "**")).
  2:{ rewrite !length_app. change (length (lit "**")) with 2%nat. cbn [length]. unfold char. lia. }
  apply sub_stars_skip.
Qed.

End HeadingFacts.

(** C5: a line whose stripped form is [n] hashes followed by something
    else gives, for [n] from 1 to 6, a heading of level [n] whose text is
    the rest, stripped, with [re.sub] unwrapping the double asterisks
    (a pair around asterisk-free text disappears and the text between
    stays); for [n] of 7 or more it gives an ordinary paragraph made of
    the whole line. *)
Theorem heading_levels (nd_nonascii : char -> bool) (lines : list str) (i : Z)
    (n : nat) (rest : str) :
  strip (Line.item lines i) = repeat 35%N n ++ rest ->
  startswith (lit "#") rest = false ->
  (1 <= n)%nat ->
  ((n <= 6)%nat ->
     step nd_nonascii lines i = ([Heading n (Re.sub_stars (strip rest))], (i + 1)%Z))
  /\ ((7 <= n)%nat ->
        step nd_nonascii lines i
        = ([Paragraph (process_markdown_text (repeat 35%N n ++ rest))], (i + 1)%Z))
  /\ (forall a b c : str,
        forallb Re.no_star a = true -> b <> [] -> forallb Re.inner_char b = true ->
        Re.sub_stars (a ++ lit "**" ++ b ++ lit "**" ++ c) = a ++ b ++ Re.sub_stars c).
Proof.
  intros Hline Hrest Hn.
  assert (startswith (lit "#") (repeat 35%N n ++ rest) = true) as Hhash.
  { destruct n as [|n]; [lia|]. reflexivity. }
  split; [|split].
  - intros Hle. unfold step. rewrite Hline, Hhash.
    rewrite (HeadingFacts.hashes_counted n rest Hrest), repeat_length.
    apply Nat.leb_le in Hle. rewrite Hle.
    now rewrite HeadingFacts.skipn_hashes.
  - intros Hge. unfold step. rewrite Hline, Hhash.
    rewrite (HeadingFacts.hashes_counted n rest Hrest), repeat_length.
    assert ((n <=? 6)%nat = false) as -> by (apply Nat.leb_gt; lia).
    reflexivity.
  - apply HeadingFacts.sub_stars_pair.
Qed.

Lemma heading_levels_witness :
  step (fun _ => false) [lit "  ## **Intro** text  "; lit "######## deep"] 0
  = ([Heading 2 (lit "Intro text")], 1%Z)
  /\ step (fun _ => false) [lit "  ## **Intro** text  "; lit "######## deep"] 1
     = ([Paragraph [Run (lit "######## deep") Plain]], 2%Z).
Proof.
  split.
  - exact (proj1 (heading_levels (fun _ => false)
                    [lit "  ## **Intro** text  "; lit "######## deep"] 0 2
                    (lit " **Intro** text") eq_refl eq_refl ltac:(lia))
                 ltac:(lia)).
  - exact (proj1 (proj2 (heading_levels (fun _ => false)
                    [lit "  ## **Intro** text  "; lit "######## deep"] 1 8
                    (lit " deep") eq_refl eq_refl ltac:(lia)))
                 ltac:(lia)).
Defined.

(** ** The command line *)



(** ** Tables *)

Module TableFacts.
Import TableM.

Lemma update_id {A : Type} (i : nat) (l : list A) : update i (fun x => x) l = l.
Proof.
  revert i. induction l as [|x l IH]; intros [|i]; cbn; try reflexivity.
  now rewrite IH.
Qed.

Lemma update_update {A : Type} (i : nat) (f h : A -> A) (l : list A) :
  update i f (update i h l) = update i (fun x => f (h x)) l.
Proof.
  revert i. induction l as [|x l IH]; intros [|i]; cbn; try reflexivity.
  now rewrite IH.
Qed.

Lemma update_ext {A : Type} (i : nat) (f h : A -> A) (l : list A) :
  (forall x, f x = h x) -> update i f l = update i h l.
Proof.
  intros Hfh. revert i. induction l as [|x l IH]; intros [|i]; cbn; try reflexivity.
  - now rewrite Hfh.
  - now rewrite IH.
Qed.

Lemma update_at {A : Type} (f : A -> A) (done : list A) (x : A) (rest : list A) :
  update (length done) f (done ++ x :: rest) = done ++ f x :: rest.
Proof. induction done as [|y done IH]; cbn; [reflexivity | now rewrite IH]. Qed.

Lemma row_after_cons (cols j : nat) (c : str) (jcs : list (nat * str))
    (r : list (list run)) :
  row_after cols ((j, c) :: jcs) r
  = row_after cols jcs
      (if j <? cols then update j (fun cell => cell ++ process_markdown_text c) r else r).
Proof. reflexivity. Qed.

Lemma fill_row_row (cols i : nat) (row : str) (g : list (list (list run))) :
  fill_row cols g (i, row) = update i (row_after cols (enumerate (cells_of row))) g.
Proof.
  unfold fill_row. generalize (enumerate (cells_of row)) as jcs.
  intros jcs. revert g. induction jcs as [|[j c] jcs IH]; intros g.
  - cbn. symmetry. apply update_id.
  - cbn [fold_left]. rewrite IH. destruct (j <? cols) eqn:Hj.
    + unfold add_to_cell. rewrite update_update.
      apply update_ext. intros x. now rewrite row_after_cons, Hj.
    + apply update_ext. intros x. now rewrite row_after_cons, Hj.
Qed.

Lemma row_after_blank (cols : nat) (cs : list str) :
  forall (done : list (list run)) (m : nat),
    length done + m = cols -> length cs <= m ->
    row_after cols (enumerate_from (length done) cs) (done ++ repeat [] m)
    = done ++ map process_markdown_text cs ++ repeat [] (m - length cs).
Proof.
  induction cs as [|c cs IH]; intros done m Hcols Hlen.
  - cbn. now rewrite Nat.sub_0_r.
  - cbn [length] in Hlen. destruct m as [|m]; [lia|].
    cbn [enumerate_from]. rewrite row_after_cons.
    assert ((length done <? cols) = true) as -> by (apply Nat.ltb_lt; lia).
    cbn [repeat]. rewrite update_at. cbn [app].
    replace (done ++ process_markdown_text c :: repeat [] m)
      with ((done ++ [process_markdown_text c]) ++ repeat [] m)
      by (now rewrite <- app_assoc).
    replace (S (length done)) with (length (done ++ [process_markdown_text c]))
      by (rewrite length_app; cbn; lia).
    rewrite IH.
    + rewrite <- app_assoc. reflexivity.
    + rewrite length_app. cbn. lia.
    + lia.
Qed.

Lemma max_cols_from (rows : list str) :
  forall m, m <= fold_left (fun m row => Nat.max m (length (cells_of row))) rows m
            /\ forall row, In row rows ->
                 length (cells_of row)
                 <= fold_left (fun m row => Nat.max m (length (cells_of row))) rows m.
Proof.
  induction rows as [|r rows IH]; intros m; cbn [fold_left].
  - split; [lia | intros row []].
  - destruct (IH (Nat.max m (length (cells_of r)))) as [Hm Hrows]. split; [lia|].
    intros row [<-|Hin]; [lia | now apply Hrows].
Qed.

Lemma max_cols_ge (rows : list str) (row : str) :
  In row rows -> length (cells_of row) <= max_cols rows.
Proof. intros Hin. now apply (max_cols_from rows 0). Qed.

Lemma fill_rows (cols : nat) (rows : list str) :
  (forall row, In row rows -> length (cells_of row) <= cols) ->
  forall done : list (list (list run)),
    fold_left (fill_row cols) (enumerate_from (length done) rows)
              (done ++ repeat (repeat [] cols) (length rows))
    = done ++ map (row_cells cols) rows.
Proof.
  induction rows as [|row rows IH]; intros Hle done.
  - reflexivity.
  - cbn [enumerate_from fold_left length repeat map].
    rewrite fill_row_row, update_at.
    pose proof (row_after_blank cols (cells_of row) [] cols eq_refl
                  (Hle row (or_introl eq_refl))) as Hrow.
    cbn [length app] in Hrow. unfold enumerate. rewrite Hrow.
    replace (done ++ row_cells cols row :: map (row_cells cols) rows)
      with ((done ++ [row_cells cols row]) ++ map (row_cells cols) rows)
      by (now rewrite <- app_assoc).
    rewrite <- IH.
    + rewrite length_app. cbn [length]. rewrite Nat.add_1_r.
      rewrite <- app_assoc. reflexivity.
    + intros r Hr. apply Hle. now right.
Qed.

End TableFacts.

Lemma max_cols_attained (rows : list str) :
  TableM.max_cols rows = 0
  \/ exists row, In row rows /\ length (TableM.cells_of row) = TableM.max_cols rows.
Proof.
  unfold TableM.max_cols.
  assert (forall m,
            fold_left (fun m row => Nat.max m (length (TableM.cells_of row))) rows m = m
            \/ exists row, In row rows
                 /\ length (TableM.cells_of row)
                    = fold_left (fun m row => Nat.max m (length (TableM.cells_of row)))
                                rows m) as H.
  { induction rows as [|r rows IH]; intros m; cbn [fold_left]; [now left|].
    destruct (IH (Nat.max m (length (TableM.cells_of r)))) as [E|(row & Hin & E)].
    - rewrite E. destruct (Nat.max_spec m (length (TableM.cells_of r))) as [[_ ->]|[_ ->]].
      + right. exists r. split; [now left | reflexivity].
      + now left.
    - right. exists row. split; [now right | exact E]. }
  destruct (H 0) as [E|E]; [now left | now right].
Qed.

(** The grid [create_table] builds, for every table text: row by row,
    the runs of the cells the row has, then cells without a run up to
    the column count, which is the number of cells of a longest row. *)
Lemma table_grid (markdown_table : str) :
  let rows := TableM.table_rows markdown_table in
  let cols := TableM.max_cols rows in
  create_table markdown_table
  = Table (length rows) cols (map (TableM.row_cells cols) rows)
  /\ (forall row, In row rows -> length (TableM.cells_of row) <= cols)
  /\ (cols = 0 \/ exists row, In row rows /\ length (TableM.cells_of row) = cols).
Proof.
  cbv zeta. split; [|split].
  - unfold create_table. f_equal.
    apply (TableFacts.fill_rows (TableM.max_cols (TableM.table_rows markdown_table))
             (TableM.table_rows markdown_table)
             (TableFacts.max_cols_ge (TableM.table_rows markdown_table)) []).
  - apply TableFacts.max_cols_ge.
  - apply max_cols_attained.
Qed.

(** C3 (the code departs from the claim): an empty cell inside a row
    is not kept.  The filter [if cell], which the comment of the source
    introduces for the empty strings that the enclosing bars produce,
    removes every empty piece, so in a row with an empty second cell the
    third cell moves under the second heading and the last column stays
    without a run; the claim's reading of the row keeps the empty cell
    in place.  A row that is merely shorter does get its remaining
    cells blank. *)
Theorem empty_cell_shifts_row (nd_nonascii : char -> bool) :
  TableM.cells_of (lit "| nut | | n/a |") = [lit "nut"; lit "n/a"]
  /\ TableM.cells_as_claimed (lit "| nut | | n/a |") = [lit "nut"; []; lit "n/a"]
  /\ document_of nd_nonascii
       (lines_text ["| Item | Qty | Note |"; "|---|---|---|"; "| nut | | n/a |"]%string)
     = Some [Table 2 3
               [[[Run (lit "Item") Plain]; [Run (lit "Qty") Plain]; [Run (lit "Note") Plain]];
                [[Run (lit "nut") Plain]; [Run (lit "n/a") Plain]; []]]]
  /\ create_table (lines_text ["| a | | b |"; "| c | d | e |"]%string)
     = Table 2 3 [[[Run (lit "a") Plain]; [Run (lit "b") Plain]; []];
                  [[Run (lit "c") Plain]; [Run (lit "d") Plain]; [Run (lit "e") Plain]]].
Proof. repeat split; vm_compute; reflexivity. Qed.

(** ** Text without inline markup *)

Module PlainFacts.

Lemma bold_at_plain (c : char) (s : str) :
  Re.marker c = false -> Re.bold_at (c :: s) = None.
Proof.
  unfold Re.marker. intros H.
  apply orb_false_elim in H as [H _]. apply orb_false_elim in H as [H _].
  apply orb_false_elim in H as [H1 H2]. rewrite N.eqb_sym in H1, H2.
  unfold Re.bold_at, Re.delimited.
  change (startswith (lit "**") (c :: s)) with ((42 =? c)%N && startswith [42%N] s).
  change (startswith (lit "__") (c :: s)) with ((95 =? c)%N && startswith [95%N] s).
  now rewrite H1, H2.
Qed.

Lemma code_at_plain (c : char) (s : str) :
  Re.marker c = false -> Re.code_at (c :: s) = None.
Proof.
  unfold Re.marker. intros H.
  apply orb_false_elim in H as [H _]. apply orb_false_elim in H as [_ H].
  cbn [Re.code_at]. now rewrite H.
Qed.

Lemma link_at_plain (c : char) (s : str) :
  Re.marker c = false -> Re.link_at (c :: s) = None.
Proof.
  unfold Re.marker. intros H. apply orb_false_elim in H as [_ H].
  cbn [Re.link_at]. now rewrite H.
Qed.

Lemma finditer_plain {A : Type} (match_at : str -> option (A * nat)) (s : str) :
  (forall c s', Re.marker c = false -> match_at (c :: s') = None) ->
  Re.plain_text s = true ->
  forall pos, Re.finditer_from match_at 0 pos s = [].
Proof.
  intros Hm. induction s as [|c s IH]; intros Hs pos; [reflexivity|].
  cbn [Re.plain_text forallb] in Hs. apply andb_prop in Hs as [Hc Hs].
  apply negb_true_iff in Hc. cbn [Re.finditer_from].
  rewrite (Hm c s Hc). now apply IH.
Qed.

Lemma process_plain (text : str) :
  Re.plain_text (Re.sub_stars text) = true ->
  process_markdown_text text = [Run (Re.sub_stars text) Plain].
Proof.
  intros H. unfold process_markdown_text, collect_formats, Re.finditer.
  rewrite (finditer_plain Re.bold_at _ bold_at_plain H).
  rewrite (finditer_plain Re.code_at _ code_at_plain H).
  rewrite (finditer_plain Re.link_at _ link_at_plain H).
  reflexivity.
Qed.

Lemma plain_no_star (s : str) :
  Re.plain_text s = true -> forallb Re.no_star s = true.
Proof.
  induction s as [|c s IH]; [reflexivity|]. cbn [Re.plain_text forallb].
  intros H. apply andb_prop in H as [Hc Hs]. rewrite (IH Hs), andb_true_r.
  unfold Re.no_star. unfold Re.marker in Hc.
  apply negb_true_iff in Hc. apply orb_false_elim in Hc as [Hc _].
  apply orb_false_elim in Hc as [Hc _]. apply orb_false_elim in Hc as [Hc _].
  now rewrite Hc.
Qed.

Lemma plain_inner (s : str) :
  Re.plain_text s = true -> Re.one_line s = true -> forallb Re.inner_char s = true.
Proof.
  induction s as [|c s IH]; [reflexivity|].
  cbn [Re.plain_text Re.one_line forallb].
  intros H L. apply andb_prop in H as [Hc Hs]. apply andb_prop in L as [Lc Ls].
  fold (Re.plain_text s) in Hs. fold (Re.one_line s) in Ls.
  rewrite (IH Hs Ls), andb_true_r.
  pose proof (plain_no_star [c]) as Hn. cbn [Re.plain_text forallb] in Hn.
  rewrite Hc in Hn. specialize (Hn eq_refl). rewrite andb_true_r in Hn.
  unfold Re.inner_char. unfold Re.no_star in Hn. now rewrite Hn, Lc.
Qed.

Lemma plain_app (a b : str) :
  Re.plain_text a = true -> Re.plain_text b = true -> Re.plain_text (a ++ b) = true.
Proof. unfold Re.plain_text. intros Ha Hb. now rewrite forallb_app, Ha, Hb. Qed.

End PlainFacts.

(** C1 (the code departs from the claim): [**text**] does not yield a
    Bold run.  The [re.sub] at the head of [process_markdown_text]
    unwraps the asterisks before the bold search runs, so a line with
    one pair of double asterisks and no other markup comes out as a
    single Plain run, while the sibling delimiter [__bold__], which the
    same pattern looks for, does yield a Bold run. *)
Theorem stars_lose_bold (a b c : str) :
  Re.plain_text a = true ->
  Re.plain_text b = true -> Re.one_line b = true -> b <> [] ->
  Re.plain_text c = true ->
  process_markdown_text (a ++ lit "**" ++ b ++ lit "**" ++ c) = [Run (a ++ b ++ c) Plain]
  /\ process_markdown_text (lit "**bold**") = [Run (lit "bold") Plain]
  /\ process_markdown_text (lit "__bold__") = [Run (lit "bold") Bold].
Proof.
  intros Ha Hb Lb Hne Hc. split; [|split; vm_compute; reflexivity].
  assert (Re.sub_stars (a ++ lit "**" ++ b ++ lit "**" ++ c) = a ++ b ++ c) as Hsub.
  { rewrite (HeadingFacts.sub_stars_pair a b c (PlainFacts.plain_no_star a Ha) Hne
               (PlainFacts.plain_inner b Hb Lb)).
    do 2 f_equal. unfold Re.sub_stars.
    pose proof (HeadingFacts.sub_stars_plain c [] (PlainFacts.plain_no_star c Hc)) as E.
    rewrite app_nil_r in E. rewrite E. apply app_nil_r. }
  rewrite PlainFacts.process_plain; rewrite Hsub; [reflexivity|].
  now repeat apply PlainFacts.plain_app.
Qed.

Lemma stars_lose_bold_witness :
  process_markdown_text (lit "say **bold** now") = [Run (lit "say bold now") Plain].
Proof.
  exact (proj1 (stars_lose_bold (lit "say ") (lit "bold") (lit " now")
                  eq_refl eq_refl eq_refl ltac:(discriminate) eq_refl)).
Defined.

(** * Further properties *)

(** ** Splitting and joining lines *)

Module TextFacts.

Lemma split_nonempty (sep : char) (s : str) : split sep s <> [].
Proof.
  induction s as [|c s IH]; cbn; [discriminate|].
  destruct (c =? sep)%N; [discriminate|].
  destruct (split sep s); discriminate.
Qed.

Lemma join_cons (sep p : str) (ps : list str) :
  ps <> [] -> join sep (p :: ps) = p ++ sep ++ join sep ps.
Proof. destruct ps; [congruence | reflexivity]. Qed.

Lemma join_split (sep : char) (s : str) : join [sep] (split sep s) = s.
Proof.
  induction s as [|c s IH]; [reflexivity|]. cbn [split].
  destruct (N.eqb_spec c sep) as [->|Hc].
  - rewrite join_cons by apply split_nonempty. now rewrite IH.
  - pose proof (split_nonempty sep s) as Hne.
    destruct (split sep s) as [|w ws]; [congruence|].
    destruct ws as [|w' ws].
    + cbn in *. now rewrite IH.
    + rewrite join_cons by discriminate. rewrite join_cons in IH by discriminate.
      rewrite <- IH. reflexivity.
Qed.

Lemma split_notin (sep : char) (l : str) : ~ In sep l -> split sep l = [l].
Proof.
  induction l as [|c l IH]; intros Hn; [reflexivity|]. cbn [split].
  destruct (N.eqb_spec c sep) as [->|_]; [exfalso; apply Hn; now left|].
  rewrite IH; [reflexivity|]. intros Hin. apply Hn. now right.
Qed.

Lemma split_app (sep : char) (p rest : str) :
  ~ In sep p -> split sep (p ++ sep :: rest) = p :: split sep rest.
Proof.
  induction p as [|c p IH]; intros Hn; cbn [app split].
  - now rewrite N.eqb_refl.
  - destruct (N.eqb_spec c sep) as [->|_]; [exfalso; apply Hn; now left|].
    rewrite IH; [reflexivity|]. intros Hin. apply Hn. now right.
Qed.

Lemma split_join (sep : char) (ls : list str) :
  ls <> [] -> Forall (fun l => ~ In sep l) ls -> split sep (join [sep] ls) = ls.
Proof.
  induction ls as [|p ps IH]; intros Hne Hall; [congruence|].
  inversion Hall as [|? ? Hp Hps]; subst.
  destruct ps as [|q ps].
  - cbn. now apply split_notin.
  - rewrite join_cons by discriminate. cbn [app].
    rewrite (split_app sep p _ Hp). f_equal. apply IH; [discriminate | exact Hps].
Qed.

(** *** Stripping *)

Lemma dropwhile_head (s : str) (c : char) (t : str) :
  dropwhile isspace s = c :: t -> isspace c = false.
Proof.
  induction s as [|x s IH]; cbn; [discriminate|].
  destruct (isspace x) eqn:Hx; [exact IH|]. intros E. now inversion E; subst.
Qed.

Lemma rstrip_last (s t : str) (c : char) :
  rstrip s = t ++ [c] -> isspace c = false.
Proof.
  unfold rstrip. intros E. apply (f_equal (@rev char)) in E.
  rewrite rev_involutive, rev_app_distr in E. cbn in E.
  now apply dropwhile_head in E.
Qed.

Lemma dropwhile_suffix (s : str) : exists a, s = a ++ dropwhile isspace s.
Proof. destruct (LineFacts.dropwhile_decomp s) as (a & H & _). now exists a. Qed.

Lemma strip_first (s : str) (c : char) (t : str) :
  strip s = c :: t -> isspace c = false.
Proof. unfold strip, lstrip. apply dropwhile_head. Qed.

Lemma strip_last (s t : str) (c : char) :
  strip s = t ++ [c] -> isspace c = false.
Proof.
  unfold strip, lstrip. intros E.
  destruct (dropwhile_suffix (rstrip s)) as [a Ha]. rewrite E in Ha.
  rewrite app_assoc in Ha. now apply rstrip_last in Ha.
Qed.

Lemma rstrip_fixed (t : str) (d : char) :
  isspace d = false -> rstrip (t ++ [d]) = t ++ [d].
Proof.
  intros Hd. unfold rstrip. rewrite rev_app_distr. cbn [rev app dropwhile].
  rewrite Hd. cbn [rev]. now rewrite rev_involutive.
Qed.

Lemma strip_fixed (s : str) :
  (forall c t, s = c :: t -> isspace c = false) ->
  (forall t d, s = t ++ [d] -> isspace d = false) ->
  strip s = s.
Proof.
  intros Hfirst Hlast. destruct s as [|c s]; [reflexivity|].
  destruct (exists_last (l:=c :: s) ltac:(discriminate)) as (t & d & E).
  unfold strip. rewrite E, (rstrip_fixed t d (Hlast t d E)), <- E.
  unfold lstrip. cbn [dropwhile]. now rewrite (Hfirst c s eq_refl).
Qed.

End TextFacts.

(** X1: [split] and [join] undo each other: joining the lines of a text
    with newlines gives the text back, and splitting the join of at
    least one line, none of which holds a newline, gives the lines
    back. *)
Theorem lines_roundtrip (sep : char) :
  (forall s, join [sep] (split sep s) = s)
  /\ (forall ls, ls <> [] -> Forall (fun l => ~ In sep l) ls ->
                 split sep (join [sep] ls) = ls).
Proof. split; [apply TextFacts.join_split | apply TextFacts.split_join]. Qed.

Lemma lines_roundtrip_witness :
  split NL (join [NL] [lit "# a"; []; lit "b"]) = [lit "# a"; []; lit "b"].
Proof.
  apply (proj2 (lines_roundtrip NL)); [discriminate|].
  repeat constructor; cbn; intuition discriminate.
Defined.

(** X2: the line the loop classifies is stripped: it neither starts nor
    ends with whitespace, and stripping it again changes nothing. *)
Theorem strip_is_stripped (s : str) :
  (forall c t, strip s = c :: t -> isspace c = false)
  /\ (forall t c, strip s = t ++ [c] -> isspace c = false)
  /\ strip (strip s) = strip s.
Proof.
  split; [|split].
  - apply TextFacts.strip_first.
  - apply TextFacts.strip_last.
  - apply TextFacts.strip_fixed;
      [apply TextFacts.strip_first | apply TextFacts.strip_last].
Qed.

Lemma strip_is_stripped_witness :
  strip (lit "  ab ") = lit "ab" /\ isspace 97%N = false.
Proof.
  split; [reflexivity|].
  exact (proj1 (strip_is_stripped (lit "  ab ")) 97%N [98%N] eq_refl).
Defined.

(** ** One piece of markup in plain text *)

Module InlineFacts.

Lemma startswith_self (d rest : str) : startswith d (d ++ rest) = true.
Proof. induction d as [|x d IH]; cbn; [reflexivity|]. now rewrite N.eqb_refl. Qed.

(** The lazy group stops at the first place where the delimiter
    starts. *)
Lemma lazy_until_found (d0 : char) (d' g rest : str) :
  g <> [] -> Re.one_line g = true -> without d0 g = true ->
  Re.lazy_until (d0 :: d') (g ++ (d0 :: d') ++ rest) = Some g.
Proof.
  set (tail := (d0 :: d') ++ rest).
  induction g as [|x g IH]; intros Hne Hl Hd; [congruence|].
  cbn [Re.one_line without forallb] in Hl, Hd.
  apply andb_prop in Hl as [Hx Hl]. apply andb_prop in Hd as [_ Hd].
  apply negb_true_iff in Hx.
  cbn [app]. rewrite HeadingFacts.lazy_until_cons, Hx.
  destruct g as [|y g].
  - cbn [app]. subst tail. now rewrite startswith_self.
  - pose proof Hd as Hy. cbn [forallb] in Hy. apply andb_prop in Hy as [Hy _].
    apply negb_true_iff in Hy. rewrite N.eqb_sym in Hy.
    cbn [app startswith]. rewrite Hy. cbn [andb].
    change (y :: g ++ tail) with ((y :: g) ++ tail).
    now rewrite (IH ltac:(discriminate) Hl Hd).
Qed.

Section Finder.
Context {A : Type}.
Variable match_at : str -> option (A * nat).
Variable opener : char -> bool.
Hypothesis closed : forall c s, opener c = false -> match_at (c :: s) = None.

Lemma finditer_none (s : str) :
  forallb (fun c => negb (opener c)) s = true ->
  forall pos, Re.finditer_from match_at 0 pos s = [].
Proof.
  induction s as [|c s IH]; intros Hs pos; [reflexivity|].
  cbn [forallb] in Hs. apply andb_prop in Hs as [Hc Hs].
  apply negb_true_iff in Hc. cbn [Re.finditer_from].
  rewrite (closed c s Hc). now apply IH.
Qed.

Lemma finditer_skip (u s : str) (pos : nat) :
  Re.finditer_from match_at (length u) pos (u ++ s)
  = Re.finditer_from match_at 0 (pos + length u) s.
Proof.
  revert pos. induction u as [|x u IH]; intros pos; cbn [length app].
  - now rewrite Nat.add_0_r.
  - cbn [Re.finditer_from]. rewrite IH. f_equal. lia.
Qed.

Lemma finditer_single (a m c : str) (g : A) :
  forallb (fun x => negb (opener x)) a = true ->
  forallb (fun x => negb (opener x)) c = true ->
  m <> [] ->
  match_at (m ++ c) = Some (g, length m) ->
  Re.finditer match_at (a ++ m ++ c) = [(length a, length a + length m, g)].
Proof.
  intros Ha Hc Hm Hmatch. unfold Re.finditer.
  assert (forall pos, Re.finditer_from match_at 0 pos (a ++ m ++ c)
                      = [(pos + length a, pos + length a + length m, g)]) as H.
  { induction a as [|x a IH]; intros pos.
    - cbn [app length]. rewrite Nat.add_0_r.
      destruct m as [|y m]; [congruence|].
      cbn [app] in *. cbn [Re.finditer_from]. rewrite Hmatch. f_equal.
      cbn [length]. replace (S (length m) - 1) with (length m) by lia.
      rewrite finditer_skip. now apply finditer_none.
    - cbn [forallb] in Ha. apply andb_prop in Ha as [Hx Ha].
      apply negb_true_iff in Hx. cbn [app Re.finditer_from].
      rewrite (closed x _ Hx), (IH Ha). cbn [length]. do 3 f_equal; lia. }
  apply (H 0).
Qed.
End Finder.

Lemma bold_closed (c : char) (s : str) : open_bold c = false -> Re.bold_at (c :: s) = None.
Proof.
  unfold open_bold. intros H. apply orb_false_elim in H as [H1 H2].
  rewrite N.eqb_sym in H1, H2. unfold Re.bold_at, Re.delimited.
  change (startswith (lit "**") (c :: s)) with ((42 =? c)%N && startswith [42%N] s).
  change (startswith (lit "__") (c :: s)) with ((95 =? c)%N && startswith [95%N] s).
  now rewrite H1, H2.
Qed.

Lemma code_closed (c : char) (s : str) : open_code c = false -> Re.code_at (c :: s) = None.
Proof. unfold open_code. intros H. cbn [Re.code_at]. now rewrite H. Qed.

Lemma link_closed (c : char) (s : str) : open_link c = false -> Re.link_at (c :: s) = None.
Proof. unfold open_link. intros H. cbn [Re.link_at]. now rewrite H. Qed.

Lemma marker_split (c : char) :
  Re.marker c = false ->
  open_bold c = false /\ open_code c = false /\ open_link c = false
  /\ Re.no_star c = true.
Proof.
  unfold Re.marker, open_bold, open_code, open_link, Re.no_star. intros H.
  apply orb_false_elim in H as [H H4]. apply orb_false_elim in H as [H H3].
  apply orb_false_elim in H as [H1 H2]. now rewrite H1, H2, H3, H4.
Qed.

Lemma plain_forall (s : str) :
  Re.plain_text s = true ->
  forallb (fun c => negb (open_bold c)) s = true
  /\ forallb (fun c => negb (open_code c)) s = true
  /\ forallb (fun c => negb (open_link c)) s = true
  /\ forallb Re.no_star s = true.
Proof.
  induction s as [|c s IH]; [now repeat split|].
  cbn [Re.plain_text forallb]. intros H. apply andb_prop in H as [Hc Hs].
  apply negb_true_iff in Hc.
  destruct (marker_split c Hc) as (H1 & H2 & H3 & H4).
  destruct (IH Hs) as (I1 & I2 & I3 & I4).
  now rewrite H1, H2, H3, H4, I1, I2, I3, I4.
Qed.

Lemma no_star_fixed (s : str) : forallb Re.no_star s = true -> Re.sub_stars s = s.
Proof.
  intros H. unfold Re.sub_stars.
  pose proof (HeadingFacts.sub_stars_plain s [] H) as E.
  now rewrite !app_nil_r in E.
Qed.

Lemma texts_plain_run (s : str) : texts (plain_run s) = s.
Proof. destruct s; [reflexivity|]. unfold texts. cbn. now rewrite app_nil_r. Qed.

Lemma texts_app (r1 r2 : list run) : texts (r1 ++ r2) = texts r1 ++ texts r2.
Proof. unfold texts. now rewrite map_app, concat_app. Qed.

(** The runs for a line with a single accepted match. *)
Lemma process_one (a m c : str) (f : format) :
  Re.sub_stars (a ++ m ++ c) = a ++ m ++ c ->
  collect_formats (a ++ m ++ c) = [f] ->
  f_start f = length a ->
  f_end f = length a + length m ->
  process_markdown_text (a ++ m ++ c)
  = plain_run a ++ [Run (f_content f) (style_of (f_type f))] ++ plain_run c.
Proof.
  intros Hsub Hf Hs He. unfold process_markdown_text. rewrite Hsub, Hf.
  cbn [sort_by_start fold_left insert_by_start emit]. rewrite Hs, He.
  assert (slice (a ++ m ++ c) 0 (length a) = a) as ->.
  { unfold slice. rewrite Nat.sub_0_r. cbn [skipn].
    rewrite firstn_app, Nat.sub_diag, firstn_all. cbn. apply app_nil_r. }
  assert (slice_from (a ++ m ++ c) (length a + length m) = c) as ->.
  { unfold slice_from. rewrite app_assoc, <- length_app.
    rewrite skipn_app, Nat.sub_diag, skipn_all. reflexivity. }
  rewrite !length_app.
  destruct a as [|x a]; destruct c as [|y c]; cbn [length plain_run app];
    repeat match goal with
           | |- context [(?p <? ?q)] => destruct (Nat.ltb_spec p q); try lia
           end; reflexivity.
Qed.

Lemma plain_without (s : str) :
  Re.plain_text s = true ->
  without 42%N s = true /\ without 95%N s = true
  /\ without 96%N s = true /\ without 91%N s = true.
Proof.
  induction s as [|x s IH]; [now repeat split|].
  cbn [Re.plain_text without forallb]. intros H. apply andb_prop in H as [Hx Hs].
  apply negb_true_iff in Hx. unfold Re.marker in Hx.
  apply orb_false_elim in Hx as [Hx H4]. apply orb_false_elim in Hx as [Hx H3].
  apply orb_false_elim in Hx as [H1 H2].
  destruct (IH Hs) as (I1 & I2 & I3 & I4). unfold without in *.
  now rewrite H1, H2, H3, H4, I1, I2, I3, I4.
Qed.

Lemma bold_at_underscores (b rest : str) :
  b <> [] -> Re.one_line b = true -> without 95%N b = true ->
  Re.bold_at (lit "__" ++ b ++ lit "__" ++ rest) = Some (b, 2 + length b + 2).
Proof.
  intros Hne Hl Hw. unfold Re.bold_at, Re.delimited.
  change (startswith (lit "**") (lit "__" ++ b ++ lit "__" ++ rest)) with false.
  change (startswith (lit "__") (lit "__" ++ b ++ lit "__" ++ rest)) with true.
  cbv iota.
  change (skipn (length (lit "__")) (lit "__" ++ b ++ lit "__" ++ rest))
    with (b ++ lit "__" ++ rest).
  now rewrite (lazy_until_found 95%N [95%N] b rest Hne Hl Hw
               : Re.lazy_until (lit "__") (b ++ lit "__" ++ rest) = Some b).
Qed.

Lemma code_at_ticks (b rest : str) :
  b <> [] -> Re.one_line b = true -> without 96%N b = true ->
  Re.code_at (lit "`" ++ b ++ lit "`" ++ rest) = Some (b, 1 + length b + 1).
Proof.
  intros Hne Hl Hw.
  change (lit "`" ++ b ++ lit "`" ++ rest) with (96%N :: (b ++ lit "`" ++ rest)).
  cbn [Re.code_at]. rewrite N.eqb_refl.
  now rewrite (lazy_until_found 96%N [] b rest Hne Hl Hw
               : Re.lazy_until [96%N] (b ++ lit "`" ++ rest) = Some b).
Qed.

Lemma link_groups_found (t u rest : str) :
  t <> [] -> Re.one_line t = true -> without 93%N t = true ->
  u <> [] -> Re.one_line u = true -> without 41%N u = true ->
  Re.link_groups (t ++ lit "](" ++ u ++ lit ")" ++ rest) = Some (t, u).
Proof.
  intros Hne Hl Hw Hu Hul Huw.
  assert (Re.lazy_until (lit ")") (u ++ lit ")" ++ rest) = Some u) as Hurl
      by exact (lazy_until_found 41%N [] u rest Hu Hul Huw).
  set (tail := lit "](" ++ u ++ lit ")" ++ rest) in *.
  induction t as [|x t IH]; [congruence|].
  cbn [Re.one_line without forallb] in Hl, Hw.
  apply andb_prop in Hl as [Hx Hl]. apply andb_prop in Hw as [_ Hw].
  apply negb_true_iff in Hx. cbn [app Re.link_groups]. rewrite Hx.
  destruct t as [|y t].
  - cbn [app]. subst tail.
    change (startswith (lit "](") (lit "](" ++ u ++ lit ")" ++ rest)) with true.
    cbv iota.
    change (skipn 2 (lit "](" ++ u ++ lit ")" ++ rest)) with (u ++ lit ")" ++ rest).
    now rewrite Hurl.
  - pose proof Hw as Hy. cbn [forallb] in Hy. apply andb_prop in Hy as [Hy _].
    apply negb_true_iff in Hy. rewrite N.eqb_sym in Hy.
    change (startswith (lit "](") ((y :: t) ++ tail))
      with ((93 =? y)%N && startswith [40%N] (t ++ tail)).
    rewrite Hy. cbn [andb].
    now rewrite (IH ltac:(discriminate) Hl Hw).
Qed.

Lemma link_at_found (t u rest : str) :
  t <> [] -> Re.one_line t = true -> without 93%N t = true ->
  u <> [] -> Re.one_line u = true -> without 41%N u = true ->
  Re.link_at (lit "[" ++ t ++ lit "](" ++ u ++ lit ")" ++ rest)
  = Some ((t, u), 1 + length t + 2 + length u + 1).
Proof.
  intros.
  change (lit "[" ++ t ++ lit "](" ++ u ++ lit ")" ++ rest)
    with (91%N :: (t ++ lit "](" ++ u ++ lit ")" ++ rest)).
  cbn [Re.link_at]. rewrite N.eqb_refl.
  now rewrite link_groups_found.
Qed.

Lemma finditer_nil {A : Type} (match_at : str -> option (A * nat))
    (opener : char -> bool) (s : str) :
  (forall c s', opener c = false -> match_at (c :: s') = None) ->
  forallb (fun c => negb (opener c)) s = true ->
  Re.finditer match_at s = [].
Proof. intros Hc Hs. unfold Re.finditer. now apply (finditer_none match_at opener Hc). Qed.

Ltac all_parts :=
  unfold str, char in *;
  rewrite !forallb_app;
  repeat match goal with
         | H : forallb _ _ = true |- _ => rewrite H
         end;
  reflexivity.

End InlineFacts.

(** X3: a line without [*], [_], a backtick or [[] comes out as one
    Plain run holding the line unchanged (for the empty line: one run
    with no text). *)
Theorem plain_line_unchanged (s : str) :
  Re.plain_text s = true -> process_markdown_text s = [Run s Plain].
Proof.
  intros H. destruct (InlineFacts.plain_forall s H) as (_ & _ & _ & Hstar).
  pose proof (InlineFacts.no_star_fixed s Hstar) as Hsub.
  rewrite PlainFacts.process_plain; rewrite Hsub; [reflexivity | exact H].
Qed.

Lemma plain_line_unchanged_witness :
  process_markdown_text (lit "plain (text) #1") = [Run (lit "plain (text) #1") Plain].
Proof. exact (plain_line_unchanged (lit "plain (text) #1") eq_refl). Defined.

(** X4: [__b__] between two pieces of plain text gives the piece
    before, if any, as a Plain run, [b] as a Bold run, and the piece
    after, if any, as a Plain run; the underscores are in no run. *)
Theorem underscore_bold (a b c : str) :
  Re.plain_text a = true ->
  Re.plain_text b = true -> Re.one_line b = true -> b <> [] ->
  Re.plain_text c = true ->
  process_markdown_text (a ++ (lit "__" ++ b ++ lit "__") ++ c)
  = plain_run a ++ [Run b Bold] ++ plain_run c
  /\ texts (process_markdown_text (a ++ (lit "__" ++ b ++ lit "__") ++ c)) = a ++ b ++ c.
Proof.
  intros Ha Hb Lb Hne Hc.
  destruct (InlineFacts.plain_forall a Ha) as (Ha1 & Ha2 & Ha3 & Ha4).
  destruct (InlineFacts.plain_forall b Hb) as (Hb1 & Hb2 & Hb3 & Hb4).
  destruct (InlineFacts.plain_forall c Hc) as (Hc1 & Hc2 & Hc3 & Hc4).
  destruct (InlineFacts.plain_without b Hb) as (_ & Hw & _ & _).
  set (m := lit "__" ++ b ++ lit "__").
  assert (length m = 2 + length b + 2) as Hlen.
  { subst m. rewrite !length_app. reflexivity. }
  assert (Re.finditer Re.bold_at (a ++ m ++ c) = [(length a, length a + length m, b)]) as Hbold.
  { apply (InlineFacts.finditer_single Re.bold_at open_bold InlineFacts.bold_closed);
      try assumption.
    - subst m. discriminate.
    - rewrite Hlen. subst m. rewrite <- !app_assoc.
      now apply InlineFacts.bold_at_underscores. }
  assert (Re.finditer Re.code_at (a ++ m ++ c) = []) as Hcode.
  { apply (InlineFacts.finditer_nil Re.code_at open_code _ InlineFacts.code_closed).
    subst m. clear - Ha2 Hb2 Hc2. InlineFacts.all_parts. }
  assert (Re.finditer Re.link_at (a ++ m ++ c) = []) as Hlink.
  { apply (InlineFacts.finditer_nil Re.link_at open_link _ InlineFacts.link_closed).
    subst m. clear - Ha3 Hb3 Hc3. InlineFacts.all_parts. }
  assert (process_markdown_text (a ++ m ++ c) = plain_run a ++ [Run b Bold] ++ plain_run c)
    as Hruns.
  { apply (InlineFacts.process_one a m c
             (Format (length a) (length a + length m) b None TBold
                     (slice (a ++ m ++ c) (length a) (length a + length m))));
      try reflexivity.
    - apply InlineFacts.no_star_fixed. subst m. clear - Ha4 Hb4 Hc4. InlineFacts.all_parts.
    - unfold collect_formats. rewrite Hbold, Hcode, Hlink. reflexivity. }
  split; [exact Hruns|]. rewrite Hruns.
  rewrite !InlineFacts.texts_app, !InlineFacts.texts_plain_run.
  unfold texts. cbn. now rewrite app_nil_r.
Qed.

Lemma underscore_bold_witness :
  process_markdown_text (lit "very __bold__ text")
  = [Run (lit "very ") Plain; Run (lit "bold") Bold; Run (lit " text") Plain].
Proof.
  exact (proj1 (underscore_bold (lit "very ") (lit "bold") (lit " text")
                  eq_refl eq_refl eq_refl ltac:(discriminate) eq_refl)).
Defined.

(** X5: a backtick pair around [b] between two pieces of plain text
    gives [b] as a Code run between the Plain runs of the two pieces;
    the backticks are in no run. *)
Theorem inline_code (a b c : str) :
  Re.plain_text a = true ->
  Re.plain_text b = true -> Re.one_line b = true -> b <> [] ->
  Re.plain_text c = true ->
  process_markdown_text (a ++ (lit "`" ++ b ++ lit "`") ++ c)
  = plain_run a ++ [Run b Code] ++ plain_run c
  /\ texts (process_markdown_text (a ++ (lit "`" ++ b ++ lit "`") ++ c)) = a ++ b ++ c.
Proof.
  intros Ha Hb Lb Hne Hc.
  destruct (InlineFacts.plain_forall a Ha) as (Ha1 & Ha2 & Ha3 & Ha4).
  destruct (InlineFacts.plain_forall b Hb) as (Hb1 & Hb2 & Hb3 & Hb4).
  destruct (InlineFacts.plain_forall c Hc) as (Hc1 & Hc2 & Hc3 & Hc4).
  destruct (InlineFacts.plain_without b Hb) as (_ & _ & Hw & _).
  set (m := lit "`" ++ b ++ lit "`").
  assert (length m = 1 + length b + 1) as Hlen.
  { subst m. rewrite !length_app. reflexivity. }
  assert (Re.finditer Re.bold_at (a ++ m ++ c) = []) as Hbold.
  { apply (InlineFacts.finditer_nil Re.bold_at open_bold _ InlineFacts.bold_closed).
    subst m. clear - Ha1 Hb1 Hc1. InlineFacts.all_parts. }
  assert (Re.finditer Re.code_at (a ++ m ++ c) = [(length a, length a + length m, b)]) as Hcode.
  { apply (InlineFacts.finditer_single Re.code_at open_code InlineFacts.code_closed);
      try assumption.
    - subst m. discriminate.
    - rewrite Hlen. subst m. rewrite <- !app_assoc.
      now apply InlineFacts.code_at_ticks. }
  assert (Re.finditer Re.link_at (a ++ m ++ c) = []) as Hlink.
  { apply (InlineFacts.finditer_nil Re.link_at open_link _ InlineFacts.link_closed).
    subst m. clear - Ha3 Hb3 Hc3. InlineFacts.all_parts. }
  assert (process_markdown_text (a ++ m ++ c) = plain_run a ++ [Run b Code] ++ plain_run c)
    as Hruns.
  { apply (InlineFacts.process_one a m c
             (Format (length a) (length a + length m) b None TCode
                     (slice (a ++ m ++ c) (length a) (length a + length m))));
      try reflexivity.
    - apply InlineFacts.no_star_fixed. subst m. clear - Ha4 Hb4 Hc4. InlineFacts.all_parts.
    - unfold collect_formats. rewrite Hbold, Hcode, Hlink. reflexivity. }
  split; [exact Hruns|]. rewrite Hruns.
  rewrite !InlineFacts.texts_app, !InlineFacts.texts_plain_run.
  unfold texts. cbn. now rewrite app_nil_r.
Qed.

Lemma inline_code_witness :
  process_markdown_text (lit "run `make` twice")
  = [Run (lit "run ") Plain; Run (lit "make") Code; Run (lit " twice") Plain].
Proof.
  exact (proj1 (inline_code (lit "run ") (lit "make") (lit " twice")
                  eq_refl eq_refl eq_refl ltac:(discriminate) eq_refl)).
Defined.

(** X6: a link [[t](u)] between two pieces of plain text gives [t] as
    a Link run between the Plain runs of the two pieces: brackets,
    parentheses and the address [u] are in no run. *)
Theorem link_text_only (a t u c : str) :
  Re.plain_text a = true ->
  Re.plain_text t = true -> Re.one_line t = true -> without 93%N t = true -> t <> [] ->
  Re.plain_text u = true -> Re.one_line u = true -> without 41%N u = true -> u <> [] ->
  Re.plain_text c = true ->
  process_markdown_text (a ++ (lit "[" ++ t ++ lit "](" ++ u ++ lit ")") ++ c)
  = plain_run a ++ [Run t Link] ++ plain_run c
  /\ texts (process_markdown_text (a ++ (lit "[" ++ t ++ lit "](" ++ u ++ lit ")") ++ c))
     = a ++ t ++ c.
Proof.
  intros Ha Ht Lt Wt Hne Hu Lu Wu Hune Hc.
  destruct (InlineFacts.plain_forall a Ha) as (Ha1 & Ha2 & Ha3 & Ha4).
  destruct (InlineFacts.plain_forall t Ht) as (Ht1 & Ht2 & Ht3 & Ht4).
  destruct (InlineFacts.plain_forall u Hu) as (Hu1 & Hu2 & Hu3 & Hu4).
  destruct (InlineFacts.plain_forall c Hc) as (Hc1 & Hc2 & Hc3 & Hc4).
  set (m := lit "[" ++ t ++ lit "](" ++ u ++ lit ")").
  assert (length m = 1 + length t + 2 + length u + 1) as Hlen.
  { subst m. rewrite !length_app.
    change (length (lit "[")) with 1. change (length (lit "](")) with 2.
    change (length (lit ")")) with 1. lia. }
  assert (Re.finditer Re.bold_at (a ++ m ++ c) = []) as Hbold.
  { apply (InlineFacts.finditer_nil Re.bold_at open_bold _ InlineFacts.bold_closed).
    subst m. clear - Ha1 Ht1 Hu1 Hc1. InlineFacts.all_parts. }
  assert (Re.finditer Re.code_at (a ++ m ++ c) = []) as Hcode.
  { apply (InlineFacts.finditer_nil Re.code_at open_code _ InlineFacts.code_closed).
    subst m. clear - Ha2 Ht2 Hu2 Hc2. InlineFacts.all_parts. }
  assert (Re.finditer Re.link_at (a ++ m ++ c)
          = [(length a, length a + length m, (t, u))]) as Hlink.
  { apply (InlineFacts.finditer_single Re.link_at open_link InlineFacts.link_closed);
      try assumption.
    - subst m. discriminate.
    - rewrite Hlen. subst m. rewrite <- !app_assoc.
      now apply InlineFacts.link_at_found. }
  assert (process_markdown_text (a ++ m ++ c) = plain_run a ++ [Run t Link] ++ plain_run c)
    as Hruns.
  { apply (InlineFacts.process_one a m c
             (Format (length a) (length a + length m) t (Some u) TLink
                     (slice (a ++ m ++ c) (length a) (length a + length m))));
      try reflexivity.
    - apply InlineFacts.no_star_fixed. subst m. clear - Ha4 Ht4 Hu4 Hc4. InlineFacts.all_parts.
    - unfold collect_formats. rewrite Hbold, Hcode, Hlink. reflexivity. }
  split; [exact Hruns|]. rewrite Hruns.
  rewrite !InlineFacts.texts_app, !InlineFacts.texts_plain_run.
  unfold texts. cbn. now rewrite app_nil_r.
Qed.

Lemma link_text_only_witness :
  process_markdown_text (lit "see [the docs](http://x.org/a) here")
  = [Run (lit "see ") Plain; Run (lit "the docs") Link; Run (lit " here") Plain].
Proof.
  exact (proj1 (link_text_only (lit "see ") (lit "the docs") (lit "http://x.org/a")
                  (lit " here")
                  eq_refl eq_refl eq_refl eq_refl ltac:(discriminate)
                  eq_refl eq_refl eq_refl ltac:(discriminate) eq_refl)).
Defined.

(** ** Sorting the formats *)

Module SortFacts.

Lemma insert_perm (f : format) (l : list format) :
  Permutation (f :: l) (insert_by_start f l).
Proof.
  induction l as [|g l IH]; cbn [insert_by_start]; [reflexivity|].
  destruct (f_start f <? f_start g); [reflexivity|].
  rewrite perm_swap. now constructor.
Qed.

Lemma insert_hd (f : format) (l : list format) (x : format) :
  start_le x f -> HdRel start_le x l -> HdRel start_le x (insert_by_start f l).
Proof.
  intros Hxf Hl. destruct l as [|g l]; cbn [insert_by_start]; [now constructor|].
  destruct (f_start f <? f_start g); constructor; [exact Hxf|].
  now inversion Hl.
Qed.

Lemma insert_sorted (f : format) (l : list format) :
  Sorted start_le l -> Sorted start_le (insert_by_start f l).
Proof.
  induction 1 as [|g l Hs IH Hhd]; cbn [insert_by_start]; [repeat constructor|].
  destruct (Nat.ltb_spec (f_start f) (f_start g)) as [Hlt|Hge].
  - constructor; [now constructor|]. constructor. unfold start_le. lia.
  - constructor; [exact IH|]. apply insert_hd; [exact Hge | exact Hhd].
Qed.

Lemma fold_insert (l acc : list format) :
  Sorted start_le acc ->
  Sorted start_le (fold_left (fun acc f => insert_by_start f acc) l acc)
  /\ Permutation (acc ++ l) (fold_left (fun acc f => insert_by_start f acc) l acc).
Proof.
  revert acc. induction l as [|f l IH]; intros acc Hacc; cbn [fold_left].
  - rewrite app_nil_r. split; [exact Hacc | reflexivity].
  - destruct (IH (insert_by_start f acc) (insert_sorted f acc Hacc)) as [Hs Hp].
    split; [exact Hs|]. rewrite <- Hp.
    rewrite <- Permutation_middle.
    apply (Permutation_app_tail l (insert_perm f acc)).
Qed.

End SortFacts.

(** X7: sorting by start keeps every format, once each, and puts them
    in the order of their starts, so the runs of the accepted matches
    are emitted by increasing start. *)
Theorem sort_by_start_sorts (l : list format) :
  Sorted start_le (sort_by_start l) /\ Permutation l (sort_by_start l).
Proof.
  unfold sort_by_start.
  destruct (SortFacts.fold_insert l [] ltac:(constructor)) as [Hs Hp].
  split; [exact Hs | exact Hp].
Qed.

(** ** Accepted matches *)

Module OverlapFacts.

Section FinderOrder.
Context {A : Type}.
Variable match_at : str -> option (A * nat).
Hypothesis positive : forall s a n, match_at s = Some (a, n) -> 1 <= n.

(** The matches of one pattern follow each other without overlap. *)
Lemma finditer_from_ordered (s : str) :
  forall skip pos,
    Forall (fun m => pos + skip <= m_start m /\ m_start m < m_end m)
           (Re.finditer_from match_at skip pos s)
    /\ ForallOrdPairs (fun x y => m_end x <= m_start y)
                      (Re.finditer_from match_at skip pos s).
Proof.
  induction s as [|c s IH]; intros skip pos; cbn [Re.finditer_from].
  - split; constructor.
  - destruct skip as [|k].
    + destruct (match_at (c :: s)) as [[a n]|] eqn:Hm.
      * pose proof (positive _ _ _ Hm) as Hn.
        destruct (IH (n - 1) (S pos)) as [Hall Hord]. split.
        -- constructor; [cbn; lia|].
           eapply Forall_impl; [|exact Hall]. cbn. intros m [H1 H2]. lia.
        -- constructor; [|exact Hord].
           eapply Forall_impl; [|exact Hall]. cbn. intros m [H1 H2].
           unfold m_end, m_start in *. cbn. lia.
      * destruct (IH 0 (S pos)) as [Hall Hord]. split; [|exact Hord].
        eapply Forall_impl; [|exact Hall]. cbn. intros m [H1 H2]. lia.
    + destruct (IH k (S pos)) as [Hall Hord]. split; [|exact Hord].
      eapply Forall_impl; [|exact Hall]. cbn. intros m [H1 H2]. lia.
Qed.
End FinderOrder.

Lemma bold_positive (s : str) (g : str) (n : nat) :
  Re.bold_at s = Some (g, n) -> 1 <= n.
Proof.
  unfold Re.bold_at, Re.delimited. intros H.
  repeat match type of H with
         | context [if ?b then _ else _] => destruct b
         | context [match Re.lazy_until ?d ?x with _ => _ end] =>
             destruct (Re.lazy_until d x)
         end;
    try discriminate; inversion H; subst; cbn; lia.
Qed.

Lemma code_positive (s : str) (g : str) (n : nat) :
  Re.code_at s = Some (g, n) -> 1 <= n.
Proof.
  destruct s as [|c s]; cbn [Re.code_at]; [discriminate|].
  destruct (c =? 96)%N; [|discriminate].
  destruct (Re.lazy_until _ _); [|discriminate].
  intros H. inversion H. lia.
Qed.

Lemma link_positive (s : str) (g : str * str) (n : nat) :
  Re.link_at s = Some (g, n) -> 1 <= n.
Proof.
  destruct s as [|c s]; cbn [Re.link_at]; [discriminate|].
  destruct (c =? 91)%N; [|discriminate].
  destruct (Re.link_groups _) as [[t u]|]; [|discriminate].
  intros H. inversion H. lia.
Qed.

Lemma ordpairs_snoc {A : Type} (R : A -> A -> Prop) (l : list A) (x : A) :
  ForallOrdPairs R l -> Forall (fun f => R f x) l -> ForallOrdPairs R (l ++ [x]).
Proof.
  induction 1 as [|f l Hf Hl IH]; intros Hx; cbn [app].
  - repeat constructor.
  - inversion Hx as [|? ? Hfx Hlx]; subst. constructor.
    + apply Forall_app. split; [exact Hf | now constructor].
    + now apply IH.
Qed.

Lemma ordpairs_map {A B : Type} (R : A -> A -> Prop) (R' : B -> B -> Prop)
    (h : A -> B) (l : list A) :
  (forall x y, R x y -> R' (h x) (h y)) ->
  ForallOrdPairs R l -> ForallOrdPairs R' (map h l).
Proof.
  intros HR. induction 1 as [|x l Hx Hl IH]; cbn [map]; constructor; [|exact IH].
  apply Forall_map. eapply Forall_impl; [|exact Hx]. intros y. apply HR.
Qed.

Lemma hits_false (s e : nat) (f : format) :
  hits s e f = false -> f_start f < f_end f -> s < e ->
  f_end f <= s \/ e <= f_start f \/ (s < f_start f /\ f_end f < e).
Proof.
  unfold hits. intros H Hf Hse.
  apply orb_false_elim in H as [H1 H2].
  destruct (Nat.leb_spec (f_start f) s), (Nat.ltb_spec s (f_end f)),
    (Nat.ltb_spec (f_start f) e), (Nat.leb_spec e (f_end f));
    cbn in H1, H2; try discriminate; lia.
Qed.

Lemma add_code_guarded (text : str) : guarded (add_code text).
Proof.
  intros formats [[s e] g]. unfold add_code.
  destruct (is_valid s e formats) eqn:Hv; [right | now left].
  split; [exact Hv|]. eexists. split; [reflexivity|]. split; reflexivity.
Qed.

Lemma add_link_guarded (text : str) : guarded (add_link text).
Proof.
  intros formats [[s e] [g1 g2]]. unfold add_link.
  destruct (is_valid s e formats) eqn:Hv; [right | now left].
  split; [exact Hv|]. eexists. split; [reflexivity|]. split; reflexivity.
Qed.

Lemma guarded_fold {A : Type} (add : list format -> nat * nat * A -> list format)
    (cands : list (nat * nat * A)) :
  guarded add ->
  Forall (fun m => m_start m < m_end m) cands ->
  forall formats, formats_inv formats -> formats_inv (fold_left add cands formats).
Proof.
  intros Hadd. induction 1 as [|m cands Hm Hc IH]; intros formats Hinv; cbn [fold_left];
    [exact Hinv|].
  apply IH. destruct (Hadd formats m) as [->|(Hv & f & -> & Hs & He)]; [exact Hinv|].
  destruct Hinv as [Hne Hord]. split.
  - apply Forall_app. split; [exact Hne|]. constructor; [lia | constructor].
  - apply ordpairs_snoc; [exact Hord|].
    unfold is_valid in Hv. apply negb_true_iff in Hv.
    apply Forall_forall. intros x Hx.
    assert (hits (m_start m) (m_end m) x = false) as Hh.
    { destruct (hits (m_start m) (m_end m) x) eqn:E; [|reflexivity].
      assert (existsb (hits (m_start m) (m_end m)) formats = true) as Hex
          by (apply existsb_exists; eauto).
      congruence. }
    rewrite Forall_forall in Hne.
    unfold apart_or_enclosed. rewrite Hs, He.
    apply (hits_false _ _ _ Hh (Hne x Hx) Hm).
Qed.

Lemma fold_add_bold (text : str) (ms : list (nat * nat * str)) (acc : list format) :
  fold_left (add_bold text) ms acc = acc ++ map (mk_bold text) ms.
Proof.
  revert acc. induction ms as [|[[s e] g] ms IH]; intros acc; cbn [fold_left map].
  - now rewrite app_nil_r.
  - rewrite IH. unfold add_bold. now rewrite <- app_assoc.
Qed.

Lemma starts_before_ends {A : Type} (match_at : str -> option (A * nat)) (text : str) :
  (forall s a n, match_at s = Some (a, n) -> 1 <= n) ->
  Forall (fun m => m_start m < m_end m) (Re.finditer match_at text).
Proof.
  intros Hp. destruct (finditer_from_ordered match_at Hp text 0 0) as [Hall _].
  eapply Forall_impl; [|exact Hall]. cbn. intros m [_ H]. exact H.
Qed.

Lemma bold_inv (text : str) :
  formats_inv (fold_left (add_bold text) (Re.finditer Re.bold_at text) []).
Proof.
  rewrite fold_add_bold. cbn [app].
  destruct (finditer_from_ordered Re.bold_at bold_positive text 0 0) as [Hall Hord].
  fold (Re.finditer Re.bold_at text) in Hall, Hord. split.
  - apply Forall_map. eapply Forall_impl; [|exact Hall].
    intros [[s e] g] [_ H]. exact H.
  - apply (ordpairs_map (fun x y => m_end x <= m_start y)); [|exact Hord].
    intros [[s e] g] [[s' e'] g'] H. left. exact H.
Qed.

End OverlapFacts.

(** X8: of two accepted matches, the one accepted later either lies
    apart from the earlier one or strictly encloses it: neither of its
    ends falls inside the earlier match; and every accepted match
    covers at least one character. *)
Theorem accepted_apart_or_enclosed (text : str) :
  ForallOrdPairs apart_or_enclosed (collect_formats text)
  /\ Forall (fun f => f_start f < f_end f) (collect_formats text).
Proof.
  assert (formats_inv (collect_formats text)) as [Hne Hord].
  { unfold collect_formats.
    apply OverlapFacts.guarded_fold;
      [apply OverlapFacts.add_link_guarded
      | apply OverlapFacts.starts_before_ends, OverlapFacts.link_positive |].
    apply OverlapFacts.guarded_fold;
      [apply OverlapFacts.add_code_guarded
      | apply OverlapFacts.starts_before_ends, OverlapFacts.code_positive |].
    apply OverlapFacts.bold_inv. }
  split; assumption.
Qed.

(** ** Tables, again *)

Module GridFacts.

Lemma snoc_app_inv {A : Type} (u v t : list A) (d : A) :
  v <> [] -> u ++ v = t ++ [d] -> exists t', v = t' ++ [d].
Proof.
  intros Hv E. destruct (exists_last Hv) as (t' & d' & ->).
  rewrite app_assoc in E. apply app_inj_tail in E as [_ ->]. now exists t'.
Qed.

Lemma join_nonempty (sep : str) (ls : list str) :
  ls <> [] -> Forall (fun l => l <> []) ls -> join sep ls <> [].
Proof.
  intros Hne Hall. destruct ls as [|l ls]; [congruence|].
  inversion Hall as [|? ? Hl _]; subst.
  destruct ls as [|l' ls]; [exact Hl|]. rewrite TextFacts.join_cons by discriminate.
  destruct l; [congruence | discriminate].
Qed.

Lemma join_last (ls : list str) (t : str) (d : char) :
  Forall collected ls -> join [NL] ls = t ++ [d] -> isspace d = false.
Proof.
  intros Hall. revert t. induction Hall as [|l ls Hl Hls IH]; intros t E.
  - destruct t; discriminate.
  - destruct ls as [|l' ls].
    + cbn in E. destruct Hl as (Hs & _ & _). rewrite <- Hs in E.
      now apply TextFacts.strip_last in E.
    + rewrite TextFacts.join_cons in E by discriminate.
      rewrite app_assoc in E.
      apply snoc_app_inv in E as [t' E'].
      * now apply IH in E'.
      * apply join_nonempty; [discriminate|].
        eapply Forall_impl; [|exact Hls]. intros x (_ & Hx & _). exact Hx.
Qed.

Lemma join_first (ls : list str) (c : char) (t : str) :
  Forall collected ls -> join [NL] ls = c :: t -> isspace c = false.
Proof.
  intros Hall E. destruct Hall as [|l ls (Hs & Hne & _) _]; [discriminate|].
  destruct l as [|x l]; [congruence|].
  assert (c = x) as ->.
  { destruct ls; cbn in E; now inversion E. }
  now apply (TextFacts.strip_first (x :: l) x l).
Qed.

(** The rows [create_table] splits off are the lines joined for it. *)
Lemma rows_of_join (ls : list str) :
  ls <> [] -> Forall collected ls ->
  map strip (split NL (strip (join [NL] ls))) = ls.
Proof.
  intros Hne Hall.
  rewrite (TextFacts.strip_fixed (join [NL] ls)).
  - rewrite TextFacts.split_join; [|exact Hne|].
    + clear Hne. induction Hall as [|l ls (Hs & _) _ IH]; cbn [map]; [reflexivity|].
      now rewrite Hs, IH.
    + eapply Forall_impl; [|exact Hall]. intros x (_ & _ & Hx). exact Hx.
  - intros c t. now apply join_first.
  - intros t d. now apply join_last.
Qed.

Lemma row_cells_length (cols : nat) (row : str) :
  length (TableM.cells_of row) <= cols -> length (TableM.row_cells cols row) = cols.
Proof.
  intros H. unfold TableM.row_cells. rewrite length_app, length_map, repeat_length. lia.
Qed.

End GridFacts.

(** X9: the table is a full grid: it has as many rows as the table
    text has rows left, and every row has exactly the number of columns
    of the table. *)
Theorem table_is_rectangular (markdown_table : str) :
  exists (nrows ncols : nat) (cells : list (list (list run))),
    create_table markdown_table = Table nrows ncols cells
    /\ nrows = length (TableM.table_rows markdown_table)
    /\ length cells = nrows
    /\ Forall (fun row => length row = ncols) cells.
Proof.
  set (rows := TableM.table_rows markdown_table).
  set (cols := TableM.max_cols rows).
  exists (length rows), cols, (map (TableM.row_cells cols) rows).
  split; [|split; [reflexivity|split]].
  - unfold create_table. fold rows. fold cols. f_equal.
    apply (TableFacts.fill_rows cols rows (TableFacts.max_cols_ge rows) []).
  - apply length_map.
  - apply Forall_map, Forall_forall. intros row Hin.
    apply GridFacts.row_cells_length. now apply TableFacts.max_cols_ge.
Qed.

(** X10: when the table text is the join of collected lines (stripped,
    non-empty, newline-free), the rows of the table are those lines,
    without the second one when it is made of bars, dashes, colons and
    whitespace only; a separator anywhere else stays a row. *)
Theorem table_rows_of_lines (ls : list str) :
  ls <> [] -> Forall collected ls ->
  TableM.table_rows (join [NL] ls) = drop_separator ls.
Proof.
  intros Hne Hall. unfold TableM.table_rows.
  now rewrite (GridFacts.rows_of_join ls Hne Hall).
Qed.

Lemma table_rows_of_lines_witness :
  TableM.table_rows (join [NL] [lit "| h |"; lit "|:-:|"; lit "| 1 |"; lit "|---|"])
  = [lit "| h |"; lit "| 1 |"; lit "|---|"].
Proof.
  apply (table_rows_of_lines [lit "| h |"; lit "|:-:|"; lit "| 1 |"; lit "|---|"]);
    [discriminate|].
  repeat constructor; try discriminate; cbn; intuition discriminate.
Defined.

(** ** Blocks of lines *)

Module BlockFacts.
Import Line.

Lemma takewhile_block {A : Type} (f : A -> bool) (a r : list A) :
  forallb f a = true ->
  match r with [] => true | x :: _ => negb (f x) end = true ->
  takewhile f (a ++ r) = a.
Proof.
  intros Ha Hr. destruct r as [|x r].
  - rewrite app_nil_r. now apply FenceFacts.takewhile_all.
  - apply FenceFacts.takewhile_stop; [exact Ha|]. now apply negb_true_iff.
Qed.

Lemma skipn_pre {A : Type} (pre l : list A) : skipn (length pre) (pre ++ l) = l.
Proof. induction pre as [|y pre IH]; cbn; [reflexivity | exact IH]. Qed.

(** The lines a collecting loop walks over when it starts at a block. *)
Lemma run_from_block (cond : str -> bool) (pre block rest : list str) :
  forallb cond block = true -> stops cond rest = true ->
  run_from cond (pre ++ block ++ rest) (Z.of_nat (length pre)) = block.
Proof.
  intros Hb Hr. unfold run_from. rewrite Nat2Z.id, skipn_pre.
  now apply takewhile_block.
Qed.

Lemma pipe_tests (line : str) :
  startswith (lit "|") line = true ->
  startswith (lit "#") line = false /\ is_rule line = false.
Proof.
  intros H. destruct (FenceFacts.startswith_app _ _ H) as [t ->].
  split; reflexivity.
Qed.

Lemma pipe_tests_more (nd : char -> bool) (line : str) :
  startswith (lit "|") line = true ->
  bullet_at line = false /\ number_at nd line = false
  /\ startswith (lit "```") line = false /\ startswith (lit ">") line = false
  /\ TableM.nonempty line = true.
Proof.
  intros H. destruct (FenceFacts.startswith_app _ _ H) as [t ->].
  repeat split; try reflexivity. cbn. now destruct t.
Qed.

Lemma quote_tests (nd : char -> bool) (line : str) :
  startswith (lit ">") line = true ->
  startswith (lit "#") line = false /\ is_rule line = false
  /\ startswith (lit "|") line = false
  /\ bullet_at line = false /\ number_at nd line = false
  /\ startswith (lit "```") line = false.
Proof.
  intros H. destruct (FenceFacts.startswith_app _ _ H) as [t ->].
  repeat split; try reflexivity. cbn. now destruct t.
Qed.

End BlockFacts.

(** X11: two or more consecutive lines that start with a bar once
    stripped form one table: the step takes them all, up to the end of
    the input or the first line that does not start with a bar, hands
    their stripped forms joined by newlines to [create_table], and
    moves the cursor behind them. *)
Theorem table_block (nd_nonascii : char -> bool)
    (pre : list str) (l1 l2 : str) (more rest : list str) :
  pipe_line l1 = true -> pipe_line l2 = true ->
  forallb pipe_line more = true -> stops pipe_line rest = true ->
  step nd_nonascii (pre ++ l1 :: l2 :: more ++ rest) (Z.of_nat (length pre))
  = ([create_table (join [NL] (map strip (l1 :: l2 :: more)))],
     Z.of_nat (length (pre ++ l1 :: l2 :: more))).
Proof.
  intros H1 H2 Hmore Hrest. unfold pipe_line in H1, H2.
  destruct (BlockFacts.pipe_tests _ H1) as [Hh Hr].
  set (lines := pre ++ l1 :: l2 :: more ++ rest).
  assert (Line.item lines (Z.of_nat (length pre)) = l1) as Hi1
      by apply FenceFacts.item_after.
  assert (Line.item lines (Z.of_nat (length pre) + 1) = l2) as Hi2.
  { subst lines. replace (pre ++ l1 :: l2 :: more ++ rest)
      with ((pre ++ [l1]) ++ l2 :: more ++ rest) by (now rewrite <- app_assoc).
    replace (Z.of_nat (length pre) + 1)%Z with (Z.of_nat (length (pre ++ [l1])))
      by (rewrite length_app; cbn; lia).
    apply FenceFacts.item_after. }
  assert (Line.run_from pipe_line lines (Z.of_nat (length pre) + 1) = l2 :: more) as Hrun.
  { subst lines. replace (pre ++ l1 :: l2 :: more ++ rest)
      with ((pre ++ [l1]) ++ (l2 :: more) ++ rest) by (now rewrite <- !app_assoc).
    replace (Z.of_nat (length pre) + 1)%Z with (Z.of_nat (length (pre ++ [l1])))
      by (rewrite length_app; cbn; lia).
    apply BlockFacts.run_from_block; [|exact Hrest].
    cbn [forallb]. unfold pipe_line at 1. now rewrite H2, Hmore. }
  unfold step. rewrite Hi1, Hi2, Hh, Hr, H1, H2.
  assert ((Z.of_nat (length pre) + 1 <? zlen lines)%Z = true) as ->.
  { apply Z.ltb_lt. unfold zlen. subst lines. rewrite length_app. cbn [length]. lia. }
  cbn [andb]. fold pipe_line. rewrite Hrun. f_equal.
  unfold zlen. rewrite length_app. cbn [length]. lia.
Qed.

Lemma table_block_witness :
  step (fun _ => false) ([lit "intro"] ++ lit "| a |" :: lit "  | b |" :: [] ++ [lit "end"]) 1
  = ([Table 2 1 [[[Run (lit "a") Plain]]; [[Run (lit "b") Plain]]]], 3%Z).
Proof.
  exact (table_block (fun _ => false) [lit "intro"] (lit "| a |") (lit "  | b |") []
           [lit "end"] eq_refl eq_refl eq_refl eq_refl).
Defined.

(** X12: a line that starts with a bar and is not followed by another
    such line is no table: it gives an ordinary paragraph of its
    stripped text. *)
Theorem lone_pipe_line (nd_nonascii : char -> bool)
    (pre : list str) (l : str) (rest : list str) :
  pipe_line l = true -> stops pipe_line rest = true ->
  step nd_nonascii (pre ++ l :: rest) (Z.of_nat (length pre))
  = ([Paragraph (process_markdown_text (strip l))], (Z.of_nat (length pre) + 1)%Z).
Proof.
  intros H1 Hrest. unfold pipe_line in H1.
  destruct (BlockFacts.pipe_tests _ H1) as [Hh Hr].
  destruct (BlockFacts.pipe_tests_more nd_nonascii _ H1) as (Hb & Hn & Hf & Hq & Hne).
  unfold step. rewrite FenceFacts.item_after, Hh, Hr, H1, Hb, Hn, Hf, Hq, Hne.
  assert (((Z.of_nat (length pre) + 1 <? zlen (pre ++ l :: rest))%Z
           && startswith (lit "|")
                (strip (Line.item (pre ++ l :: rest) (Z.of_nat (length pre) + 1))))
          = false) as Hnext.
  { destruct rest as [|r rest].
    - assert ((Z.of_nat (length pre) + 1 <? zlen (pre ++ [l]))%Z = false) as ->;
        [|reflexivity].
      apply Z.ltb_ge. unfold zlen. rewrite length_app. cbn [length]. lia.
    - replace (pre ++ l :: r :: rest) with ((pre ++ [l]) ++ r :: rest)
        by (now rewrite <- app_assoc).
      replace (Z.of_nat (length pre) + 1)%Z with (Z.of_nat (length (pre ++ [l])))
        by (rewrite length_app; cbn; lia).
      rewrite FenceFacts.item_after. cbn [stops] in Hrest. unfold pipe_line in Hrest.
      apply negb_true_iff in Hrest. rewrite Hrest. apply andb_false_r. }
  cbn [andb]. rewrite Hnext. reflexivity.
Qed.

Lemma lone_pipe_line_witness :
  step (fun _ => false) ([] ++ lit "| a | b |" :: [lit "text"]) 0
  = ([Paragraph [Run (lit "| a | b |") Plain]], 1%Z).
Proof.
  exact (lone_pipe_line (fun _ => false) [] (lit "| a | b |") [lit "text"] eq_refl eq_refl).
Defined.

Module DispatchFacts.
Import Line.

Lemma is_rule_first (c : char) (t : str) :
  (c =? 45)%N = false -> (c =? 42)%N = false -> (c =? 95)%N = false ->
  is_rule (c :: t) = false.
Proof.
  intros H1 H2 H3. unfold is_rule. cbn -[N.eqb]. now rewrite H1, H2, H3.
Qed.

Lemma is_rule_second (c w : char) (t : str) :
  isspace w = true -> is_rule (c :: w :: t) = false.
Proof.
  intros Hw.
  assert ((w =? 45)%N = false /\ (w =? 42)%N = false /\ (w =? 95)%N = false)
    as (H1 & H2 & H3).
  { repeat split;
      match goal with
      | |- (w =? ?k)%N = false =>
          destruct (N.eqb_spec w k) as [->|_]; [discriminate | reflexivity]
      end. }
  unfold is_rule. cbn -[N.eqb]. rewrite H1, H2, H3. cbn -[N.eqb].
  now rewrite !andb_false_r.
Qed.

Lemma first_tests (c : char) (t : str) :
  startswith (lit "#") (c :: t) = (35 =? c)%N
  /\ startswith (lit "|") (c :: t) = (124 =? c)%N
  /\ startswith (lit ">") (c :: t) = (62 =? c)%N
  /\ ((96 =? c)%N = false -> startswith (lit "```") (c :: t) = false).
Proof.
  repeat split; try (cbn -[N.eqb]; apply andb_true_r).
  intros H. cbn -[N.eqb]. now rewrite H.
Qed.

Lemma bullet_tests (line : str) :
  bullet_at line = true ->
  startswith (lit "#") line = false /\ is_rule line = false
  /\ startswith (lit "|") line = false.
Proof.
  destruct line as [|c [|w t]]; cbn [bullet_at]; try discriminate.
  intros H. apply andb_prop in H as [Hc Hw].
  destruct (first_tests c (w :: t)) as (E1 & E2 & _). rewrite E1, E2.
  split; [|split; [now apply is_rule_second|]];
    unfold bullet_char in Hc;
    match goal with
    | |- (?k =? c)%N = false =>
        destruct (N.eqb_spec k c) as [<-|_]; [discriminate | reflexivity]
    end.
Qed.

Lemma decimal_not (nd : char -> bool) (c k : char) :
  is_decimal nd c = true -> (k < 48 \/ 57 < k)%N -> (k < 128)%N -> (k =? c)%N = false.
Proof.
  intros Hd Hk Hk'. destruct (N.eqb_spec k c) as [<-|_]; [|reflexivity].
  unfold is_decimal in Hd. apply N.ltb_lt in Hk'. rewrite Hk' in Hd.
  apply andb_prop in Hd as [H1 H2]. apply N.leb_le in H1, H2. lia.
Qed.

Lemma number_tests (nd : char -> bool) (line : str) :
  number_at nd line = true ->
  startswith (lit "#") line = false /\ is_rule line = false
  /\ startswith (lit "|") line = false /\ bullet_at line = false.
Proof.
  destruct line as [|c t]; cbn [number_at]; [discriminate|].
  intros H. apply andb_prop in H as [Hc _].
  destruct (first_tests c t) as (E1 & E2 & _). rewrite E1, E2.
  assert (forall k, (k < 48 \/ 57 < k)%N -> (k < 128)%N -> (c =? k)%N = false) as Hne.
  { intros k H1 H2. rewrite N.eqb_sym. now apply (decimal_not nd). }
  split; [|split; [|split]].
  - apply (decimal_not nd); [exact Hc | lia | lia].
  - apply is_rule_first; apply Hne; lia.
  - apply (decimal_not nd); [exact Hc | lia | lia].
  - destruct t as [|w t]; [reflexivity|]. cbn [bullet_at]. unfold bullet_char.
    rewrite !Hne by lia. reflexivity.
Qed.

Lemma special_split (nd : char -> bool) (c : char) :
  special nd c = false ->
  ((35 =? c) = false /\ (124 =? c) = false /\ (42 =? c) = false /\ (45 =? c) = false
   /\ (43 =? c) = false /\ (96 =? c) = false /\ (62 =? c) = false
   /\ (95 =? c) = false)%N
  /\ is_decimal nd c = false.
Proof.
  unfold special. intros H. apply orb_false_elim in H as [H Hd].
  repeat (apply orb_false_elim in H as [H ?]).
  rewrite !(N.eqb_sym _ c). now repeat split.
Qed.

Lemma step_blank (nd : char -> bool) (lines : list str) (i : Z) :
  strip (item lines i) = [] -> step nd lines i = ([Blank], (i + 1)%Z).
Proof. intros H. unfold step. rewrite H. reflexivity. Qed.

Lemma item_nth (lines : list str) (i : nat) :
  item lines (Z.of_nat i) = nth i lines [].
Proof.
  unfold item. destruct (Z.ltb_spec (Z.of_nat i) 0) as [?|_]; [lia|].
  now rewrite Nat2Z.id.
Qed.

Lemma loop_blank (nd : char -> bool) (lines : list str) :
  Forall (fun l => strip l = []) lines ->
  forall k i doc,
    i + k = length lines ->
    loop nd k lines (Z.of_nat i) doc = Some (doc ++ repeat Blank k).
Proof.
  intros Hall. induction k as [|k IH]; intros i doc Hik; cbn [loop repeat]; unfold zlen.
  - destruct (Z.ltb_spec (Z.of_nat i) (Z.of_nat (length lines))); [lia|].
    now rewrite app_nil_r.
  - destruct (Z.ltb_spec (Z.of_nat i) (Z.of_nat (length lines))); [|lia].
    rewrite step_blank.
    + replace (Z.of_nat i + 1)%Z with (Z.of_nat (S i)) by lia.
      rewrite IH by lia. now rewrite <- app_assoc.
    + rewrite item_nth. rewrite Forall_forall in Hall. apply Hall, nth_In. lia.
Qed.

End DispatchFacts.

(** X13: blank lines are not merged: a text whose lines are all empty
    or whitespace gives one empty paragraph per line, and the empty
    text, which is one empty line, gives one. *)
Theorem blank_lines (nd_nonascii : char -> bool) (ls : list str) :
  ls <> [] -> Forall (fun l => ~ In NL l) ls -> Forall (fun l => strip l = []) ls ->
  document_of nd_nonascii (join [NL] ls) = Some (repeat Blank (length ls))
  /\ document_of nd_nonascii [] = Some [Blank].
Proof.
  intros Hne Hnl Hblank. split; [|reflexivity].
  unfold document_of. rewrite (TextFacts.split_join NL ls Hne Hnl).
  exact (DispatchFacts.loop_blank nd_nonascii ls Hblank (length ls) 0 [] eq_refl).
Qed.

Lemma blank_lines_witness :
  document_of (fun _ => false) (join [NL] [[]; lit "  "; []]) = Some [Blank; Blank; Blank].
Proof.
  apply (blank_lines (fun _ => false) [[]; lit "  "; []]); [discriminate | |].
  - repeat constructor; cbn; intuition discriminate.
  - repeat constructor.
Defined.

(** X14: a bullet line ([*], [-] or [+], then whitespace, once stripped)
    opens a list that takes the following lines that match the bullet
    pattern at any indentation; each line gives one list paragraph
    whose text is its stripped form without the first two characters,
    and the cursor moves behind the last of them. *)
Theorem bullet_block (nd_nonascii : char -> bool)
    (pre : list str) (first : str) (more rest : list str) :
  Line.bullet_at (strip first) = true ->
  forallb (Line.ws_then Line.bullet_at) more = true ->
  stops (Line.ws_then Line.bullet_at) rest = true ->
  step nd_nonascii (pre ++ first :: more ++ rest) (Z.of_nat (length pre))
  = (map (fun l => BulletItem (process_markdown_text (skipn 2 (strip l)))) (first :: more),
     Z.of_nat (length (pre ++ first :: more))).
Proof.
  intros Hfirst Hmore Hrest.
  destruct (DispatchFacts.bullet_tests _ Hfirst) as (Hh & Hr & Hp).
  assert (Line.run_from (Line.ws_then Line.bullet_at) (pre ++ first :: more ++ rest)
            (Z.of_nat (length pre)) = first :: more) as Hrun.
  { apply (BlockFacts.run_from_block _ pre (first :: more) rest); [|exact Hrest].
    cbn [forallb]. rewrite Hmore, andb_true_r.
    exact (LineFacts.ws_then_of_strip _ _ LineFacts.bullet_at_app Hfirst). }
  unfold step. rewrite FenceFacts.item_after, Hh, Hr, Hp, Hfirst. cbn [andb].
  rewrite Hrun, map_map. f_equal.
  unfold zlen. rewrite length_app. cbn [length]. lia.
Qed.

Lemma bullet_block_witness :
  step (fun _ => false) ([] ++ lit "- one" :: [lit "   * __two__"] ++ [lit "-three"]) 0
  = ([BulletItem [Run (lit "one") Plain]; BulletItem [Run (lit "two") Bold]], 2%Z).
Proof.
  exact (bullet_block (fun _ => false) [] (lit "- one") [lit "   * __two__"] [lit "-three"]
           eq_refl eq_refl eq_refl).
Defined.

(** X15: a numbered line (digits, a dot, whitespace, once stripped)
    opens a list that takes the following lines that match the numbered
    pattern at any indentation; each line gives one list paragraph whose
    text is its stripped form without the first three characters,
    whatever the width of the number. *)
Theorem number_block (nd_nonascii : char -> bool)
    (pre : list str) (first : str) (more rest : list str) :
  Line.number_at nd_nonascii (strip first) = true ->
  forallb (Line.ws_then (Line.number_at nd_nonascii)) more = true ->
  stops (Line.ws_then (Line.number_at nd_nonascii)) rest = true ->
  step nd_nonascii (pre ++ first :: more ++ rest) (Z.of_nat (length pre))
  = (map (fun l => NumberItem (process_markdown_text (skipn 3 (strip l)))) (first :: more),
     Z.of_nat (length (pre ++ first :: more))).
Proof.
  intros Hfirst Hmore Hrest.
  destruct (DispatchFacts.number_tests _ _ Hfirst) as (Hh & Hr & Hp & Hb).
  assert (Line.run_from (Line.ws_then (Line.number_at nd_nonascii))
            (pre ++ first :: more ++ rest) (Z.of_nat (length pre)) = first :: more) as Hrun.
  { apply (BlockFacts.run_from_block _ pre (first :: more) rest); [|exact Hrest].
    cbn [forallb]. rewrite Hmore, andb_true_r.
    exact (LineFacts.ws_then_of_strip _ _ (LineFacts.number_at_app nd_nonascii) Hfirst). }
  unfold step. rewrite FenceFacts.item_after, Hh, Hr, Hp, Hb, Hfirst. cbn [andb].
  rewrite Hrun, map_map. f_equal.
  unfold zlen. rewrite length_app. cbn [length]. lia.
Qed.

Lemma number_block_witness :
  step (fun _ => false) ([] ++ lit "1. one" :: [lit "10. ten"] ++ []) 0
  = ([NumberItem [Run (lit "one") Plain]; NumberItem [Run (lit " ten") Plain]], 2%Z).
Proof.
  exact (number_block (fun _ => false) [] (lit "1. one") [lit "10. ten"] []
           eq_refl eq_refl eq_refl).
Defined.

(** X16: a line that starts with [>] once stripped opens a quote that
    takes the following lines of that kind; each line loses its [>] and
    the whitespace around what follows, the pieces are joined by single
    spaces, and the whole gives one quote paragraph. *)
Theorem quote_block (nd_nonascii : char -> bool)
    (pre : list str) (first : str) (more rest : list str) :
  quote_line first = true ->
  forallb quote_line more = true ->
  stops quote_line rest = true ->
  step nd_nonascii (pre ++ first :: more ++ rest) (Z.of_nat (length pre))
  = ([Quote (process_markdown_text
               (join (lit " ") (map (fun l => strip (skipn 1 (strip l))) (first :: more))))],
     Z.of_nat (length (pre ++ first :: more))).
Proof.
  intros Hfirst Hmore Hrest. pose proof Hfirst as Hq. unfold quote_line in Hq.
  destruct (BlockFacts.quote_tests nd_nonascii _ Hq) as (Hh & Hr & Hp & Hb & Hn & Hf).
  assert (Line.run_from quote_line (pre ++ first :: more ++ rest)
            (Z.of_nat (length pre)) = first :: more) as Hrun.
  { apply (BlockFacts.run_from_block _ pre (first :: more) rest); [|exact Hrest].
    cbn [forallb]. now rewrite Hfirst, Hmore. }
  unfold step. rewrite FenceFacts.item_after, Hh, Hr, Hp, Hb, Hn, Hf, Hq. cbn [andb].
  fold quote_line. rewrite Hrun. f_equal.
  unfold zlen. rewrite length_app. cbn [length]. lia.
Qed.

Lemma quote_block_witness :
  step (fun _ => false) ([] ++ lit "> to be" :: [lit " >or not"] ++ [lit "done"]) 0
  = ([Quote [Run (lit "to be or not") Plain]], 2%Z).
Proof.
  exact (quote_block (fun _ => false) [] (lit "> to be") [lit " >or not"] [lit "done"]
           eq_refl eq_refl eq_refl).
Defined.

(** X17: a line whose stripped form starts with none of [#], [|], [*],
    [-], [+], a backtick, [>], [_] or a digit gives one paragraph made
    of the stripped line, and the cursor moves by one line. *)
Theorem ordinary_paragraph (nd_nonascii : char -> bool)
    (lines : list str) (i : Z) (c : char) (t : str) :
  strip (Line.item lines i) = c :: t ->
  special nd_nonascii c = false ->
  step nd_nonascii lines i = ([Paragraph (process_markdown_text (c :: t))], (i + 1)%Z).
Proof.
  intros Hline Hc.
  destruct (DispatchFacts.special_split nd_nonascii c Hc)
    as ((H35 & H124 & H42 & H45 & H43 & H96 & H62 & H95) & Hd).
  destruct (DispatchFacts.first_tests c t) as (E1 & E2 & E3 & E4).
  unfold step. rewrite Hline, E1, H35, E2, H124, E3, H62, (E4 H96).
  rewrite DispatchFacts.is_rule_first by (now rewrite N.eqb_sym).
  assert (Line.bullet_at (c :: t) = false) as ->.
  { destruct t as [|w t]; [reflexivity|]. cbn [Line.bullet_at]. unfold Line.bullet_char.
    now rewrite !(N.eqb_sym c), H42, H45, H43. }
  assert (Line.number_at nd_nonascii (c :: t) = false) as ->.
  { cbn [Line.number_at]. now rewrite Hd. }
  reflexivity.
Qed.

Lemma ordinary_paragraph_witness :
  step (fun _ => false) [lit "  Hello, `world`. "] 0
  = ([Paragraph [Run (lit "Hello, ") Plain; Run (lit "world") Code; Run (lit ".") Plain]],
     1%Z).
Proof.
  exact (ordinary_paragraph (fun _ => false) [lit "  Hello, `world`. "] 0 72%N
           (lit "ello, `world`.") eq_refl eq_refl).
Defined.

(** ** Paths, again *)

Module ExtFacts.
Import Path.
Local Open Scope Z_scope.

Lemma nth_error_mid {A : Type} (a b : list A) (c : A) :
  nth_error (a ++ c :: b) (length a) = Some c.
Proof. induction a as [|x a IH]; cbn; [reflexivity | exact IH]. Qed.

Lemma in_skipn_at (p : str) (k j : nat) (c : char) :
  nth_error p j = Some c -> (k <= j)%nat -> In c (skipn k p).
Proof.
  intros Hj Hk. apply (nth_error_In (skipn k p) (j - k)).
  rewrite nth_error_skipn. now replace (k + (j - k))%nat with j by lia.
Qed.

Lemma rfind_lower (c : char) (p : str) : -1 <= rfind c p.
Proof. destruct (PathFacts.rfind_spec c p) as ([H|H] & _); lia. Qed.

Lemma rfind_ge (c : char) (p : str) (k : nat) :
  nth_error p k = Some c -> Z.of_nat k <= rfind c p.
Proof.
  intros Hk. destruct (PathFacts.rfind_spec c p) as (_ & Hno & _).
  destruct (Z.lt_ge_cases (rfind c p) (Z.of_nat k)) as [Hlt|Hge]; [|exact Hge].
  exfalso. apply (Hno k Hlt). now apply (in_skipn_at p k k c).
Qed.

Lemma rfind_lt (c : char) (p : str) (k : nat) :
  ~ In c (skipn k p) -> rfind c p < Z.of_nat k.
Proof.
  intros Hno. destruct (PathFacts.rfind_spec c p) as (Hr & _ & Hat).
  destruct (Z.lt_ge_cases (rfind c p) (Z.of_nat k)) as [Hlt|Hge]; [exact Hlt|].
  exfalso. apply Hno.
  apply (in_skipn_at p k (Z.to_nat (rfind c p)) c); [apply Hat; lia | lia].
Qed.

Lemma sep_index_lt (os : os_name) (p : str) (k : nat) :
  forallb (fun c => negb (is_sep os c)) (skipn k p) = true ->
  sep_index os p < Z.of_nat k.
Proof.
  intros Hall. rewrite forallb_forall in Hall.
  assert (forall c, is_sep os c = true -> rfind c p < Z.of_nat k) as H.
  { intros c Hc. apply rfind_lt. intros Hin. specialize (Hall c Hin).
    now rewrite Hc in Hall. }
  unfold sep_index. destruct os; cbn [altsep sep].
  - apply H. reflexivity.
  - apply Z.max_lub_lt; apply H; reflexivity.
Qed.

Lemma sep_index_ge (os : os_name) (p : str) (k : nat) (c : char) :
  nth_error p k = Some c -> is_sep os c = true -> Z.of_nat k <= sep_index os p.
Proof.
  intros Hk Hc. unfold sep_index, is_sep in *. destruct os; cbn [altsep sep] in *.
  - rewrite orb_false_r in Hc. apply N.eqb_eq in Hc as ->. now apply rfind_ge.
  - apply orb_prop in Hc as [Hc|Hc]; apply N.eqb_eq in Hc as ->.
    + etransitivity; [apply rfind_ge; exact Hk | apply Z.le_max_l].
    + etransitivity; [apply rfind_ge; exact Hk | apply Z.le_max_r].
Qed.

Lemma sep_index_lower (os : os_name) (p : str) : -1 <= sep_index os p.
Proof.
  unfold sep_index. destruct (altsep os) as [a|]; [|apply rfind_lower].
  pose proof (rfind_lower (sep os) p). lia.
Qed.

Lemma splitext_unfold (os : os_name) (p : str) :
  splitext os p =
    if sep_index os p <? rfind 46%N p then
      if existsb not_dot
                 (slice p (Z.to_nat (sep_index os p + 1)) (Z.to_nat (rfind 46%N p)))
      then (firstn (Z.to_nat (rfind 46%N p)) p, skipn (Z.to_nat (rfind 46%N p)) p)
      else (p, [])
    else (p, []).
Proof. reflexivity. Qed.

Lemma plain_split (os : os_name) (s : str) :
  forallb (plain_char os) s = true ->
  forallb not_dot s = true
  /\ forallb (fun c => negb (is_sep os c)) s = true.
Proof.
  induction s as [|c s IH]; [now split|]. cbn [forallb]. intros H.
  apply andb_prop in H as [Hc Hs]. destruct (IH Hs) as [I1 I2].
  unfold plain_char in Hc. apply andb_prop in Hc as [H1 H2].
  change (not_dot c) with (negb (c =? 46)%N).
  now rewrite H1, H2, I1, I2.
Qed.

Lemma not_in_of_forallb (c : char) (s : str) :
  forallb (fun x => negb (x =? c)%N) s = true -> ~ In c s.
Proof.
  intros H Hin. rewrite forallb_forall in H. specialize (H c Hin).
  now rewrite N.eqb_refl in H.
Qed.

Lemma firstn_repeat_le {A : Type} (x : A) (j k : nat) :
  (j <= k)%nat -> firstn j (repeat x k) = repeat x j.
Proof.
  revert k. induction j as [|j IH]; intros [|k] H; cbn; try reflexivity; try lia.
  rewrite IH by lia. reflexivity.
Qed.

Lemma dir_prefix_cases (os : os_name) (pre : str) :
  dir_prefix os pre = true ->
  pre = [] \/ exists q c, pre = q ++ [c] /\ is_sep os c = true.
Proof.
  unfold dir_prefix. intros H. destruct (rev pre) as [|c q] eqn:Hrev.
  - left. apply (f_equal (@rev char)) in Hrev. now rewrite rev_involutive in Hrev.
  - right. exists (rev q), c. split; [|exact H].
    apply (f_equal (@rev char)) in Hrev. now rewrite rev_involutive in Hrev.
Qed.

End ExtFacts.

(** X18: the extension is cut at the last dot of the last component:
    for a name made of a stem with some character other than a dot and
    no separator, a dot, and an ending without dot or separator,
    [splitext] gives back what precedes the dot and the ending with its
    dot, whatever comes before the name; without an output argument the
    output path is what precedes the dot followed by [.docx]. *)
Theorem splitext_last_dot (os : Path.os_name) (pre stem ext : str) :
  forallb (fun c => negb (Path.is_sep os c)) stem = true ->
  existsb not_dot stem = true ->
  forallb (Path.plain_char os) ext = true ->
  Path.splitext os (pre ++ stem ++ lit "." ++ ext) = (pre ++ stem, lit "." ++ ext)
  /\ resolve_output os (pre ++ stem ++ lit "." ++ ext) None = pre ++ stem ++ lit ".docx".
Proof.
  intros Hstem Hnd Hext.
  destruct (ExtFacts.plain_split os ext Hext) as [Hed Hes].
  set (p := pre ++ stem ++ lit "." ++ ext).
  assert (p = (pre ++ stem) ++ 46%N :: ext) as Hp
      by (subst p; now rewrite <- app_assoc).
  set (n := length (pre ++ stem)).
  assert (Path.rfind 46%N p = Z.of_nat n) as Hdot.
  { apply Z.le_antisymm.
    - assert (Path.rfind 46%N p < Z.of_nat (S n))%Z; [|lia].
      apply ExtFacts.rfind_lt. rewrite Hp. subst n.
      rewrite FenceFacts.skipn_past. now apply ExtFacts.not_in_of_forallb.
    - apply ExtFacts.rfind_ge. rewrite Hp. apply ExtFacts.nth_error_mid. }
  assert (sep_index os p < Z.of_nat (length pre))%Z as Hsep.
  { apply ExtFacts.sep_index_lt. subst p. rewrite BlockFacts.skipn_pre.
    rewrite !forallb_app, Hstem, Hes. destruct os; reflexivity. }
  pose proof (ExtFacts.sep_index_lower os p) as Hlow.
  assert (Path.splitext os p = (pre ++ stem, lit "." ++ ext)) as Hsplit.
  { rewrite ExtFacts.splitext_unfold, Hdot, Nat2Z.id.
    assert ((sep_index os p <? Z.of_nat n)%Z = true) as ->.
    { apply Z.ltb_lt. subst n. rewrite length_app. lia. }
    set (a := Z.to_nat (sep_index os p + 1)).
    assert (a <= length pre)%nat as Ha by lia.
    assert (slice p a n = skipn a pre ++ stem) as ->.
    { unfold slice. subst p. rewrite skipn_app.
      replace (a - length pre)%nat with 0%nat by lia. cbn [skipn].
      rewrite firstn_app. rewrite firstn_all2 by (rewrite length_skipn; subst n; rewrite length_app; lia).
      rewrite length_skipn. subst n. rewrite length_app.
      replace (length pre + length stem - a - (length pre - a))%nat
        with (length stem) by lia.
      now rewrite firstn_app, Nat.sub_diag, firstn_all, firstn_O, app_nil_r. }
    rewrite existsb_app, Hnd, orb_true_r.
    rewrite Hp. subst n. rewrite firstn_app, Nat.sub_diag, firstn_all, firstn_O, app_nil_r.
    now rewrite BlockFacts.skipn_pre. }
  split; [exact Hsplit|].
  unfold resolve_output. rewrite Hsplit. cbn [fst]. now rewrite <- app_assoc.
Qed.

Lemma splitext_last_dot_witness :
  resolve_output Path.nt (lit "C:\docs.v2\" ++ lit "notes.final" ++ lit "." ++ lit "md") None
  = lit "C:\docs.v2\" ++ lit "notes.final" ++ lit ".docx".
Proof.
  exact (proj2 (splitext_last_dot Path.nt (lit "C:\docs.v2\") (lit "notes.final") (lit "md")
                  eq_refl eq_refl eq_refl)).
Defined.

(** X19: a last component without a dot, or with leading dots only (a
    hidden file), has no extension: [splitext] returns the whole path
    and an empty extension, so the default output path is the input
    path with [.docx] added. *)
Theorem no_extension (os : Path.os_name) (pre : str) (k : nat) (name : str) :
  dir_prefix os pre = true ->
  forallb (Path.plain_char os) name = true ->
  Path.splitext os (pre ++ repeat 46%N k ++ name) = (pre ++ repeat 46%N k ++ name, [])
  /\ resolve_output os (pre ++ repeat 46%N k ++ name) None
     = (pre ++ repeat 46%N k ++ name) ++ lit ".docx".
Proof.
  intros Hpre Hname.
  destruct (ExtFacts.plain_split os name Hname) as [Hnd Hns].
  pose proof (ExtFacts.dir_prefix_cases os pre Hpre) as Hcases. clear Hpre.
  unfold str, char in *.
  set (p := pre ++ repeat 46%N k ++ name).
  assert (Path.splitext os p = (p, [])) as Hsplit.
  { rewrite ExtFacts.splitext_unfold.
    pose proof (ExtFacts.sep_index_lower os p) as Hlow.
    (* the separators are all in [pre], and its last character is one *)
    assert (sep_index os p < Z.of_nat (length pre))%Z as Hsep.
    { apply ExtFacts.sep_index_lt. unfold str, char. subst p.
      rewrite BlockFacts.skipn_pre.
      rewrite forallb_app, Hns, andb_true_r.
      apply forallb_forall. intros c Hc. apply repeat_spec in Hc as ->.
      destruct os; reflexivity. }
    assert (sep_index os p + 1 = Z.of_nat (length pre))%Z as Hsep1.
    { destruct Hcases as [Hnil|(q & c & Hq & Hc)].
      - rewrite Hnil in *. cbn [length] in *. lia.
      - assert (Z.of_nat (length q) <= sep_index os p)%Z.
        { apply (ExtFacts.sep_index_ge os p _ c); [|exact Hc].
          subst p. rewrite Hq, <- app_assoc. apply ExtFacts.nth_error_mid. }
        rewrite Hq in *. rewrite length_app in *. cbn [length] in *. lia. }
    destruct (Z.ltb_spec (sep_index os p) (Path.rfind 46%N p)) as [Hlt|_]; [|reflexivity].
    (* the last dot is the last of the leading dots *)
    assert (Path.rfind 46%N p < Z.of_nat (length pre + k))%Z as Hd.
    { apply ExtFacts.rfind_lt. subst p. rewrite app_assoc.
      replace (length pre + k)%nat with (length (pre ++ repeat 46%N k))
        by (now rewrite length_app, repeat_length).
      rewrite BlockFacts.skipn_pre. now apply ExtFacts.not_in_of_forallb. }
    assert (slice p (Z.to_nat (sep_index os p + 1)) (Z.to_nat (Path.rfind 46%N p))
            = repeat 46%N (Z.to_nat (Path.rfind 46%N p) - length pre)) as ->.
    { unfold slice. rewrite Hsep1, Nat2Z.id. subst p. rewrite BlockFacts.skipn_pre.
      rewrite firstn_app, repeat_length.
      replace (Z.to_nat (Path.rfind 46%N (pre ++ repeat 46%N k ++ name))
               - length pre - k)%nat with 0%nat by lia.
      rewrite firstn_O, app_nil_r. apply ExtFacts.firstn_repeat_le. lia. }
    assert (forall j, existsb not_dot (repeat 46%N j) = false) as Hrep.
    { induction j as [|j IH]; [reflexivity|]. cbn [repeat existsb]. now rewrite IH. }
    now rewrite Hrep. }
  split; [exact Hsplit|].
  unfold resolve_output. now rewrite Hsplit.
Qed.

Lemma no_extension_witness :
  resolve_output Path.posix (lit "/home/me.d/" ++ repeat 46%N 1 ++ lit "profile") None
  = lit "/home/me.d/.profile.docx".
Proof.
  exact (proj2 (no_extension Path.posix (lit "/home/me.d/") 1 (lit "profile")
                  eq_refl eq_refl)).
Defined.

(** ** The command line, again *)





(** ** Fences, runs and cells *)

(** X22: the opening fence is looked for on the stripped line, the
    closing one on the line as it is: an opening line whose stripped
    form starts with three backticks takes the lines after it up to the
    first line that itself starts with three backticks, or up to the
    end of the input; the cursor moves past that closing line, or one
    past the end. *)
Theorem fence_any_indent (nd_nonascii : char -> bool)
    (pre : list str) (opening : str) (inner rest : list str) :
  startswith (lit "```") (strip opening) = true ->
  forallb Line.not_fence inner = true ->
  stops Line.not_fence rest = true ->
  step nd_nonascii (pre ++ opening :: inner ++ rest) (Z.of_nat (length pre))
  = ([CodeBlock (join [NL] inner)],
     (Z.of_nat (length (pre ++ opening :: inner)) + 1)%Z).
Proof.
  intros Hopen Hinner Hrest.
  rewrite FenceFacts.step_fence by (now rewrite FenceFacts.item_after).
  assert (Line.run_from Line.not_fence (pre ++ opening :: inner ++ rest)
            (Z.of_nat (length pre) + 1) = inner) as ->.
  { replace (pre ++ opening :: inner ++ rest) with ((pre ++ [opening]) ++ inner ++ rest)
      by (now rewrite <- app_assoc).
    replace (Z.of_nat (length pre) + 1)%Z with (Z.of_nat (length (pre ++ [opening])))
      by (rewrite length_app; cbn; lia).
    now apply BlockFacts.run_from_block. }
  f_equal. rewrite length_app. cbn [length]. lia.
Qed.

Lemma fence_any_indent_witness :
  step (fun _ => false) ([] ++ lit "   ```sh" :: [lit "ls"; lit "   ```"] ++ []) 0
  = ([CodeBlock (lit "ls" ++ [NL] ++ lit "   ```")], 4%Z).
Proof.
  exact (fence_any_indent (fun _ => false) [] (lit "   ```sh") [lit "ls"; lit "   ```"] []
           eq_refl eq_refl eq_refl).
Defined.

Module RunFacts.

Lemma formatted_run (f : format) : formatted (run_of_format f) = true.
Proof. unfold formatted, run_of_format. cbn. now destruct (f_type f). Qed.

Lemma emit_formatted (text : str) (formats : list format) :
  forall last_end runs,
    filter formatted (snd (fold_left (emit text) formats (last_end, runs)))
    = filter formatted runs ++ map run_of_format formats.
Proof.
  induction formats as [|f formats IH]; intros last_end runs; cbn [fold_left map].
  - cbn [snd]. now rewrite app_nil_r.
  - unfold emit at 2. rewrite IH.
    fold (run_of_format f). rewrite filter_app. cbn [filter].
    rewrite formatted_run.
    destruct (last_end <? f_start f); [rewrite filter_app; cbn [filter formatted run_style]|];
      rewrite ?app_nil_r, <- app_assoc; reflexivity.
Qed.

Lemma split_no_sep (sep : char) (s : str) (w : str) :
  In w (split sep s) -> ~ In sep w.
Proof.
  revert w. induction s as [|c s IH]; intros w; cbn [split].
  - intros [<-|[]] [].
  - destruct (N.eqb_spec c sep) as [->|Hc].
    + intros [<-|Hin]; [intros [] | now apply IH].
    + pose proof (TextFacts.split_nonempty sep s) as Hne.
      destruct (split sep s) as [|w0 ws]; [congruence|].
      intros [<-|Hin].
      * intros [E|Hin]; [congruence|]. apply (IH w0); [now left | exact Hin].
      * apply IH. now right.
Qed.

Lemma in_strip (x : char) (s : str) : In x (strip s) -> In x s.
Proof.
  intros H. destruct (LineFacts.strip_decomp s) as (a & b & E & _).
  rewrite E. apply in_or_app. right. apply in_or_app. now left.
Qed.

End RunFacts.

(** X23: the formatted runs of a line are exactly the accepted matches,
    in the order of their starts, each with its captured text and its
    style; every other run is Plain. *)
Theorem formatted_runs_are_matches (text : str) :
  filter formatted (process_markdown_text text) = map run_of_format (accepted text).
Proof.
  unfold process_markdown_text, accepted.
  set (t := Re.sub_stars text). set (formats := sort_by_start (collect_formats t)).
  pose proof (RunFacts.emit_formatted t formats 0 []) as H.
  destruct formats as [|f formats]; [reflexivity|].
  destruct (fold_left (emit t) (f :: formats) (0, [])) as [last_end runs].
  cbn [snd filter app] in H.
  destruct (last_end <? length t); [rewrite filter_app; cbn [filter formatted run_style]|];
    rewrite ?app_nil_r; exact H.
Qed.

(** X24: a table cell is never empty, has no whitespace at either end
    and holds no bar. *)
Theorem cells_are_trimmed (row cell : str) :
  In cell (TableM.cells_of row) ->
  cell <> [] /\ strip cell = cell /\ ~ In 124%N cell.
Proof.
  unfold TableM.cells_of. intros H. apply filter_In in H as [Hin Hne].
  apply in_map_iff in Hin as (piece & <- & Hpiece).
  split; [|split].
  - intros E. now rewrite E in Hne.
  - apply TextFacts.strip_fixed;
      [apply TextFacts.strip_first | apply TextFacts.strip_last].
  - intros Hbar. apply RunFacts.in_strip in Hbar.
    exact (RunFacts.split_no_sep 124%N row piece Hpiece Hbar).
Qed.

Lemma cells_are_trimmed_witness :
  strip (lit "b c") = lit "b c" /\ ~ In 124%N (lit "b c").
Proof.
  exact (proj2 (cells_are_trimmed (lit "| a ||  b c |") (lit "b c")
                  ltac:(cbn; auto))).
Defined.
